(** * product-importer: a shallow embedding of the import pipeline

    The development follows the TypeScript sources:

    - [manufacturer.service.ts] / [vendor.service.ts]: the two reference
      resolvers [getManufacturerId] and [getVendorId];
    - [description-enhancer.service.ts]: [enhanceDescription] and
      [constructPrompt];
    - [product.service.ts]: [transformRow], [upsertBatch],
      [handleDeletions], [checkExistingOrders] and [importProducts];
    - [product.schema.ts], [manufacturer.schema.ts], [vendor.schema.ts]: the
      shape of the three collections.

    Asynchronous methods become computations in a state-and-exception monad
    [M].  Everything the program cannot decide by itself (the ids drawn by
    [nanoid], whether a database call is rejected, which items of a bulk
    write the store rejects and in which order it takes them, what the
    rate limiter and the completion service answer, which pending handler
    of the stream goes on next) is read from an oracle, so every theorem
    quantifies over all behaviours of the outside world.

    The listeners that [importProducts] registers on the stream are
    [async] and the stream does not wait for them: [pause] is called on
    the file stream, not on the parser that delivers the rows.  The run is
    therefore a set of handlers, one per row and one for ['end'], each
    going on from [await] to [await] in an order that the outside world
    chooses.  The calls that a handler awaits are taken as a whole at the
    point where the handler goes on.

    A string is the UTF-8 encoding of the JavaScript string it stands for.

    The file has three parts: the program; the vocabulary in which the
    properties are stated, with a few concrete worlds and inputs; the
    properties and their proofs. *)

From Stdlib Require Import Floats ZArith String Ascii List Lia.
From stdpp Require Import gmap strings list pretty.

Local Open Scope string_scope.
Local Open Scope Z_scope.

(** ** JavaScript values and built-ins used by the sources *)

Module Js.

(** A property read such as [row.PKG] yields a string or [undefined]:
    [option string], with [None] for [undefined]. *)

(** Truthiness of a string-or-undefined: [undefined] and [''] are falsy. *)
Definition truthy (v : option string) : bool :=
  match v with
  | Some s => negb (String.eqb s "")
  | None => false
  end.

(** [v || d] with a string default. *)
Definition or_str (v : option string) (d : string) : string :=
  match v with
  | Some s => if String.eqb s "" then d else s
  | None => d
  end.

(** [v || null]. *)
Definition or_null (v : option string) : option string :=
  if truthy v then v else None.

(** A template-literal hole [${v}]: [undefined] prints as ["undefined"]. *)
Definition template (v : option string) : string :=
  match v with
  | Some s => s
  | None => "undefined"
  end.

(** [v === 'lit'] against a string literal. *)
Definition strict_eq (v : option string) (lit : string) : bool :=
  match v with
  | Some s => String.eqb s lit
  | None => false
  end.

(** A string is the UTF-8 encoding of the JavaScript string it stands
    for.  [white s] is what is left of [s] after one white space character,
    when [s] starts with one: the WhiteSpace and LineTerminator of
    ECMAScript, which [trim], [parseInt] and [parseFloat] skip.  These are
    TAB, LF, VT, FF, CR and SP; U+00A0 (C2 A0); U+1680 (E1 9A 80);
    U+2000 to U+200A, U+2028, U+2029 and U+202F (E2 80 ..); U+205F
    (E2 81 9F); U+3000 (E3 80 80) and U+FEFF (EF BB BF). *)
Definition white1 (c : ascii) : bool :=
  let n := N_of_ascii c in
  (((9 <=? n) && (n <=? 13)) || (n =? 32))%N.

Definition white2 (c d : ascii) : bool :=
  ((N_of_ascii c =? 194) && (N_of_ascii d =? 160))%N.

Definition white3 (c d e : ascii) : bool :=
  let '(x, y, z) := (N_of_ascii c, N_of_ascii d, N_of_ascii e) in
  (((x =? 225) && (y =? 154) && (z =? 128))
   || ((x =? 226) && (y =? 128)
       && (((128 <=? z) && (z <=? 138)) || (z =? 168) || (z =? 169) || (z =? 175)))
   || ((x =? 226) && (y =? 129) && (z =? 159))
   || ((x =? 227) && (y =? 128) && (z =? 128))
   || ((x =? 239) && (y =? 187) && (z =? 191)))%N.

Definition white (s : string) : option string :=
  match s with
  | String c t =>
      if white1 c then Some t
      else
        match t with
        | String d t1 =>
            if white2 c d then Some t1
            else
              match t1 with
              | String e t2 => if white3 c d e then Some t2 else None
              | EmptyString => None
              end
        | EmptyString => None
        end
  | EmptyString => None
  end.

Fixpoint trimStart (s : string) : string :=
  match s with
  | String c t =>
      if white1 c then trimStart t
      else
        match t with
        | String d t1 =>
            if white2 c d then trimStart t1
            else
              match t1 with
              | String e t2 => if white3 c d e then trimStart t2 else s
              | EmptyString => s
              end
        | EmptyString => s
        end
  | EmptyString => s
  end.

(** A string made of white space only (the empty string is one). *)
Fixpoint blank (s : string) : bool :=
  match s with
  | String c t =>
      if white1 c then blank t
      else
        match t with
        | String d t1 =>
            if white2 c d then blank t1
            else
              match t1 with
              | String e t2 => if white3 c d e then blank t2 else false
              | EmptyString => false
              end
        | EmptyString => false
        end
  | EmptyString => true
  end.

(** [trimEnd]: the longest suffix made of white space only is dropped. *)
Fixpoint trimEnd (s : string) : string :=
  match s with
  | String c t => if blank s then EmptyString else String c (trimEnd t)
  | EmptyString => EmptyString
  end.

Definition trim (s : string) : string := trimEnd (trimStart s).

(** Numbers produced by [parseInt(_, 10)]: an integer or [NaN]. The
    integer is kept exact (the source's double is exact up to 2^53). *)
Inductive number :=
| NaN
| Int (z : Z).

Definition digit (c : ascii) : option Z :=
  let n := Z.of_N (N_of_ascii c) in
  if (48 <=? n) && (n <=? 57) then Some (n - 48) else None.

(** Longest prefix of decimal digits: accumulated value (continuing
    [acc]), number of digits read, and the rest of the string. *)
Fixpoint digits (s : string) (acc : Z) (count : Z) : Z * Z * string :=
  match s with
  | String c t =>
      match digit c with
      | Some d => digits t (10 * acc + d) (count + 1)
      | None => (acc, count, s)
      end
  | EmptyString => (acc, count, s)
  end.

(** An optional leading sign: [true] for a minus. *)
Definition sign (s : string) : bool * string :=
  match s with
  | String "-" t => (true, t)
  | String "+" t => (false, t)
  | _ => (false, s)
  end.

(** [parseInt(v, 10)]. *)
Definition parseInt (v : option string) : number :=
  let '(neg, s) := sign (trimStart (template v)) in
  let '(n, count, _) := digits s 0 0 in
  if count =? 0 then NaN else Int (if neg then - n else n).

(** [Number.prototype.toString()] on the result of [parseInt]. *)
Definition toString (n : number) : string :=
  match n with
  | NaN => "NaN"
  | Int z => pretty z
  end.

(** The binary64 value nearest to [m * 10^e] ([m >= 0]), ties to even.
    For a negative exponent the quotient is computed with more than 64
    significant bits and a sticky bit before the final rounding. *)
Definition of_decimal (neg : bool) (m e : Z) : float :=
  let sgn (x : Z) := if neg then - x else x in
  if 0 <=? e then SF2Prim (binary_normalize prec emax (sgn (m * 10 ^ e)) 0 neg)
  else
    let d := 10 ^ (- e) in
    let s := Z.max 0 (Z.log2 d + 66 - Z.log2 m) in
    let n := m * 2 ^ s in
    let q := 2 * (n / d) + (if n mod d =? 0 then 0 else 1) in
    SF2Prim (binary_normalize prec emax (sgn q) (- s - 1) neg).

Definition is_exp_mark (c : ascii) : bool :=
  (Ascii.eqb c "e" || Ascii.eqb c "E")%char.

(** [parseFloat(v)]: the longest prefix that is a decimal literal
    (optional sign, [Infinity], digits with an optional fraction and an
    optional exponent), [NaN] when there is none. *)
Definition parseFloat (v : option string) : float :=
  let '(neg, s) := sign (trimStart (template v)) in
  if String.prefix "Infinity" s then (if neg then neg_infinity else infinity)
  else
    let '(ip, ni, s1) := digits s 0 0 in
    let '(m, nf, s2) :=
      match s1 with
      | String "." t => digits t ip 0
      | _ => (ip, 0, s1)
      end in
    if ni + nf =? 0 then nan
    else
      let e :=
        match s2 with
        | String c t =>
            if is_exp_mark c then
              let '(eneg, t') := sign t in
              let '(ev, ne, _) := digits t' 0 0 in
              if ne =? 0 then 0 else if eneg then - ev else ev
            else 0
        | EmptyString => 0
        end in
      of_decimal neg m (e - nf).

(** Truthiness of a number: [NaN], [0] and [-0] are falsy. *)
Definition truthy_num (x : float) : bool :=
  negb (PrimFloat.is_nan x || PrimFloat.is_zero x).

(** [x || 0] on numbers. *)
Definition or_zero (x : float) : float :=
  if truthy_num x then x else 0%float.

(** An [Error] object; only its [message] is ever read. *)
Record Error := mkError { message : string }.

End Js.

(** ** Data model ([product.schema.ts], [manufacturer.schema.ts],
       [vendor.schema.ts]) *)

Module Image.
Record t := mk {
  fileName : string;
  cdnLink : option string;
  i : Z;
  alt : option string
}.
End Image.

Module Attributes.
Record t := mk {
  packaging : option string;
  description : string
}.
End Attributes.

Module Variant.
Record t := mk {
  id : string;
  available : bool;
  attributes : Attributes.t;
  cost : float;
  currency : string;
  description : string;
  manufacturerItemCode : option string;
  manufacturerItemId : option string;
  packaging : option string;
  price : float;
  sku : string;
  active : bool;
  images : list Image.t;
  itemCode : string
}.
End Variant.

Module ProductData.
Record t := mk {
  name : option string;
  type : string;
  shortDescription : string;
  description : string;
  vendorId : string;
  manufacturerId : string;
  storefrontPriceVisibility : string;
  variants : list Variant.t;
  isDeleted : option bool
}.

Definition set_isDeleted (b : option bool) (d : t) : t :=
  mk (name d) (type d) (shortDescription d) (description d) (vendorId d)
     (manufacturerId d) (storefrontPriceVisibility d) (variants d) b.
End ProductData.

(** The object built by [transformRow]: [{ docId, data }]. *)
Module Draft.
Record t := mk {
  docId : string;
  data : ProductData.t
}.
End Draft.

(** A stored document of the products collection: the schema's [docId],
    [fullData] (Mixed, [null] by default: [None]) and [data], under the
    store's own [_id]. *)
Module Product.
Record t := mk {
  _id : nat;
  docId : string;
  fullData : option string;
  data : ProductData.t
}.

(** The [id] virtual: [_id] as a string. *)
Definition id (p : t) : string := pretty (_id p).

Definition set_data (d : ProductData.t) (p : t) : t :=
  mk (_id p) (docId p) (fullData p) d.
End Product.

Module Manufacturer.
Record t := mk {
  manufacturerId : string;
  name : option string
}.
End Manufacturer.

Module Vendor.
Record t := mk {
  vendorId : string;
  name : option string
}.
End Vendor.

(** One record of the tab-separated feed, as the parser hands it to the
    ['data'] handler: every column is a string or missing. *)
Record Row := {
  ProductID : option string;
  ProductName : option string;
  ProductDescription : option string;
  PrimaryCategoryName : option string;
  PriceDescription : option string;
  ManufacturerID : option string;
  ManufacturerName : option string;
  ManufacturerItemCode : option string;
  ItemDescription : option string;
  NDCItemCode : option string;
  PKG : option string;
  UnitPrice : option string;
  Availability : option string;
  ImageFileName : option string;
  ItemImageURL : option string
}.

(** The part of an OpenAI completion response that the enhancer reads. *)
Record Choice := { text : option string }.
Record CompletionData := { choices : option (list Choice) }.
Record CompletionResponse := { data : option CompletionData }.

(** ** The outside world and the monad of asynchronous methods *)

Inductive Outcome (A : Type) :=
| Ok (a : A)
| Throw (e : Js.Error).
Arguments Ok {A} a.
Arguments Throw {A} e.

(** What the program does not control.  Each external interaction reads
    the oracle at the current [tick] and advances the clock.  A rejection
    of a database call stands for any reason the store may have
    (validation of a required path, a unique index, the connection).
    For the one call of an unordered bulk write made at instant [t],
    [bulkRejects t i] tells whether the store rejects the item of index
    [i] and [bulkOrder t] in which order it takes the items.  [schedule]
    tells which of the pending handlers of the stream goes on next. *)
Record Env := {
  nanoidAt : nat -> string;
  dbRejects : nat -> option Js.Error;
  bulkRejects : nat -> nat -> option Js.Error;
  bulkOrder : nat -> list nat;
  limiterRejects : nat -> option Js.Error;
  completionAt : nat -> string -> Outcome CompletionResponse;
  schedule : nat -> nat;
  DELETE_FLAG : bool
}.

(** The state threaded through a run: the oracle and its clock, the three
    collections and the two variables [batch] and [importedProductIds] that
    the handlers of [importProducts] close over.  Four history variables
    only record what happened and are never read by the program: the
    batches handed to [bulkWrite], in order; the drafts pushed on [batch],
    in order; the largest length [batch] ever had; the [_id]s on which
    [product.save()] was called. *)
Record State := {
  env : Env;
  tick : nat;
  vendorModel : list Vendor.t;
  manufacturerModel : list Manufacturer.t;
  productModel : list Product.t;
  batch : list Draft.t;
  importedProductIds : gset string;
  bulkWrites : list (list Draft.t);
  accepted : list Draft.t;
  batchPeak : nat;
  productSaves : list nat
}.

Definition set_tick (n : nat) (s : State) : State :=
  Build_State (env s) n (vendorModel s) (manufacturerModel s) (productModel s)
    (batch s) (importedProductIds s) (bulkWrites s) (accepted s) (batchPeak s)
    (productSaves s).
Definition set_vendorModel (v : list Vendor.t) (s : State) : State :=
  Build_State (env s) (tick s) v (manufacturerModel s) (productModel s)
    (batch s) (importedProductIds s) (bulkWrites s) (accepted s) (batchPeak s)
    (productSaves s).
Definition set_manufacturerModel (m : list Manufacturer.t) (s : State) : State :=
  Build_State (env s) (tick s) (vendorModel s) m (productModel s)
    (batch s) (importedProductIds s) (bulkWrites s) (accepted s) (batchPeak s)
    (productSaves s).
Definition set_productModel (p : list Product.t) (s : State) : State :=
  Build_State (env s) (tick s) (vendorModel s) (manufacturerModel s) p
    (batch s) (importedProductIds s) (bulkWrites s) (accepted s) (batchPeak s)
    (productSaves s).
Definition set_importedProductIds (i : gset string) (s : State) : State :=
  Build_State (env s) (tick s) (vendorModel s) (manufacturerModel s) (productModel s)
    (batch s) i (bulkWrites s) (accepted s) (batchPeak s) (productSaves s).

(** [batch.push(d)]. *)
Definition push_batch (d : Draft.t) (s : State) : State :=
  Build_State (env s) (tick s) (vendorModel s) (manufacturerModel s) (productModel s)
    (batch s ++ [d]) (importedProductIds s) (bulkWrites s) (accepted s ++ [d])
    (Nat.max (batchPeak s) (length (batch s ++ [d]))) (productSaves s).

(** [batch = []]. *)
Definition reset_batch (s : State) : State :=
  Build_State (env s) (tick s) (vendorModel s) (manufacturerModel s) (productModel s)
    [] (importedProductIds s) (bulkWrites s) (accepted s) (batchPeak s)
    (productSaves s).

Definition record_bulkWrite (b : list Draft.t) (s : State) : State :=
  Build_State (env s) (tick s) (vendorModel s) (manufacturerModel s) (productModel s)
    (batch s) (importedProductIds s) (bulkWrites s ++ [b]) (accepted s) (batchPeak s)
    (productSaves s).
Definition record_save (id : nat) (s : State) : State :=
  Build_State (env s) (tick s) (vendorModel s) (manufacturerModel s) (productModel s)
    (batch s) (importedProductIds s) (bulkWrites s) (accepted s) (batchPeak s)
    (productSaves s ++ [id]).

Definition M (A : Type) : Type := State -> Outcome A * State.

Definition ret {A} (a : A) : M A := fun s => (Ok a, s).
Definition throw {A} (e : Js.Error) : M A := fun s => (Throw e, s).
Definition bind {A B} (m : M A) (k : A -> M B) : M B :=
  fun s =>
    match m s with
    | (Ok a, s') => k a s'
    | (Throw e, s') => (Throw e, s')
    end.

(** [try { body } catch (e) { handler }]: effects of [body] up to the
    throw stay. *)
Definition try_catch {A} (body : M A) (handler : Js.Error -> M A) : M A :=
  fun s =>
    match body s with
    | (Ok a, s') => (Ok a, s')
    | (Throw e, s') => handler e s'
    end.

Definition gets {A} (f : State -> A) : M A := fun s => (Ok (f s), s).
Definition modify (f : State -> State) : M unit := fun s => (Ok tt, f s).

#[global] Instance M_ret : MRet M := @ret.
#[global] Instance M_bind : MBind M := fun A B k m => bind m k.

(** The current instant of the clock; the clock advances. *)
Definition next_tick : M nat :=
  fun s => (Ok (tick s), set_tick (S (tick s)) s).

(** [nanoid()]. *)
Definition nanoid : M string :=
  t ← next_tick;
  e ← gets env;
  ret (nanoidAt e t).

(** A call to the database: rejected when the oracle says so, and then
    without effect; otherwise [op] runs on the collections. *)
Definition dbCall {A} (op : M A) : M A :=
  t ← next_tick;
  e ← gets env;
  match dbRejects e t with
  | Some err => throw err
  | None => op
  end.

(** ** Reference resolvers ([manufacturer.service.ts], [vendor.service.ts]) *)

Module ManufacturerService.

(** [manufacturerModel.findOne({ manufacturerId: key }).exec()]. *)
Definition findOne (key : string) : M (option Manufacturer.t) :=
  dbCall (gets (fun s =>
    List.find (fun m => String.eqb (Manufacturer.manufacturerId m) key)
              (manufacturerModel s))).

(** [manufacturer.save()] of a freshly built document. *)
Definition save (m : Manufacturer.t) : M unit :=
  dbCall (modify (fun s => set_manufacturerModel (manufacturerModel s ++ [m]) s)).

Definition getManufacturerId (manufacturerId : Js.number)
    (manufacturerName : option string) : M string :=
  manufacturer ← findOne (Js.toString manufacturerId);
  match manufacturer with
  | Some m => ret (Manufacturer.manufacturerId m)
  | None =>
      newManufacturerId ← nanoid;
      let m := Manufacturer.mk newManufacturerId manufacturerName in
      try_catch
        (save m;; ret newManufacturerId)
        (fun error => throw error)
  end.

End ManufacturerService.

Module VendorService.

(** [vendorModel.findOne({ vendorId: key }).exec()]. *)
Definition findOne (key : string) : M (option Vendor.t) :=
  dbCall (gets (fun s =>
    List.find (fun v => String.eqb (Vendor.vendorId v) key) (vendorModel s))).

(** [vendor.save()] of a freshly built document. *)
Definition save (v : Vendor.t) : M unit :=
  dbCall (modify (fun s => set_vendorModel (vendorModel s ++ [v]) s)).

Definition getVendorId (manufacturerId : Js.number)
    (manufacturerName : option string) : M string :=
  vendor ← findOne (Js.toString manufacturerId);
  match vendor with
  | Some v => ret (Vendor.vendorId v)
  | None =>
      newVendorId ← nanoid;
      let v := Vendor.mk newVendorId manufacturerName in
      try_catch
        (save v;; ret newVendorId)
        (fun error => throw error)
  end.

End VendorService.

(** ** Description enhancer ([description-enhancer.service.ts]) *)

Module DescriptionEnhancerService.

(** [limiter.removeTokens(1)]. *)
Definition removeTokens : M unit :=
  t ← next_tick;
  e ← gets env;
  match limiterRejects e t with
  | Some err => throw err
  | None => ret tt
  end.

(** [openai.createCompletion(requestPayload)]; of the payload only the
    prompt varies. *)
Definition createCompletion (prompt : string) : M CompletionResponse :=
  t ← next_tick;
  e ← gets env;
  match completionAt e t prompt with
  | Ok r => ret r
  | Throw err => throw err
  end.

Definition lf : string := String (ascii_of_nat 10) EmptyString.

Definition constructPrompt (name category description : option string) : string :=
  let basePrompt :=
    "You are an expert in medical sales specializing in medical consumables used by hospitals daily. Enhance the product description based on the information provided."
    ++ lf ++ lf ++ "Product name: " ++ Js.template name ++ lf
    ++ "Category: " ++ Js.template category ++ lf in
  match description with
  | Some d =>
      if negb (String.eqb d "") && negb (String.eqb (Js.trim d) "")
      then basePrompt ++ "Product description: " ++ d ++ lf ++ lf ++ "New Description:"
      else basePrompt ++ lf ++ "New Description:"
  | None => basePrompt ++ lf ++ "New Description:"
  end.

(** Reading [.text.trim()] of [undefined] raises a [TypeError]. *)
Definition typeError : Js.Error :=
  Js.mkError "Cannot read properties of undefined (reading 'trim')".

Definition enhanceDescription (name category description : option string)
    : M string :=
  try_catch removeTokens (fun error => ret tt);;
  let prompt := constructPrompt name category description in
  try_catch
    (response ← createCompletion prompt;
     match data response with
     | Some d =>
         match choices d with
         | Some (c :: _) =>
             match text c with
             | Some t => ret (Js.trim t)
             | None => throw typeError
             end
         | _ => ret (Js.or_str description "")
         end
     | None => ret (Js.or_str description "")
     end)
    (fun error => ret (Js.or_str description "")).

End DescriptionEnhancerService.

(** ** The import orchestrator ([product.service.ts]) *)

Module ProductService.

(** The literal [1.2], i.e. the binary64 number nearest to it. *)
Definition markup : float := 0x1.3333333333333p+0%float.

Definition batchSize : nat := 1000.

Definition transformRow (row : Row) : M Draft.t :=
  docId ← nanoid;
  vendorId ← VendorService.getVendorId
               (Js.parseInt (ManufacturerID row)) (ManufacturerName row);
  manufacturerId ← ManufacturerService.getManufacturerId
               (Js.parseInt (ManufacturerID row)) (ManufacturerName row);
  enhancedDescription ← DescriptionEnhancerService.enhanceDescription
               (ProductName row) (PrimaryCategoryName row) (ProductDescription row);
  variantId ← nanoid;
  ret (Draft.mk docId
    (ProductData.mk
      (ProductName row)
      "non-inventory"
      (Js.or_str (PriceDescription row) "")
      enhancedDescription
      vendorId
      manufacturerId
      "members-only"
      [ Variant.mk
          variantId
          (Js.strict_eq (Availability row) "Available")
          (Attributes.mk (PKG row) (Js.or_str (ItemDescription row) ""))
          (Js.or_zero (Js.parseFloat (UnitPrice row)))
          "USD"
          (Js.or_str (ItemDescription row) "")
          (ManufacturerItemCode row)
          (ManufacturerID row)
          (PKG row)
          (Js.or_zero (Js.parseFloat (UnitPrice row) * markup)%float)
          (Js.template (ManufacturerItemCode row) ++ Js.template (PKG row))
          true
          [ Image.mk
              (Js.or_str (ImageFileName row) "")
              (Js.or_null (ItemImageURL row))
              0
              (Js.or_null (ProductName row)) ]
          (Js.or_str (NDCItemCode row) "") ]
      None)).

(** The filter [{ 'data.name': name }]. *)
Definition name_matches (name : option string) (p : Product.t) : bool :=
  bool_decide (ProductData.name (Product.data p) = name).

(** [{ $set: product }] on a stored document: the paths [docId] and
    [data] take the values of [product]; every other path stays. *)
Definition apply_set (product : Draft.t) (p : Product.t) : Product.t :=
  Product.mk (Product._id p) (Draft.docId product) (Product.fullData p)
             (Draft.data product).

(** The update reaches the first document that matches the filter. *)
Fixpoint update_first (name : option string) (product : Draft.t)
    (docs : list Product.t) : list Product.t :=
  match docs with
  | [] => []
  | p :: rest =>
      if name_matches name p then apply_set product p :: rest
      else p :: update_first name product rest
  end.

(** An [_id] that no stored document has. *)
Definition fresh_id (docs : list Product.t) : nat :=
  S (list_max (map Product._id docs)).

(** One [updateOne] item of the bulk operation, with [upsert: true]: the
    first match is updated, and a document is inserted when none
    matches. *)
Definition updateOne (product : Draft.t) (docs : list Product.t)
    : list Product.t :=
  let name := ProductData.name (Draft.data product) in
  if existsb (name_matches name) docs
  then update_first name product docs
  else docs ++ [Product.mk (fresh_id docs) (Draft.docId product) None
                           (Draft.data product)].

(** [insert_at n x l]: [x] put at position [n] of [l], at its end when
    [l] is shorter. *)
Fixpoint insert_at {A} (n : nat) (x : A) (l : list A) : list A :=
  match n, l with
  | S n', y :: l' => y :: insert_at n' x l'
  | _, _ => x :: match n with O => l | S _ => [] end
  end.

(** The order in which the store takes the items of an unordered bulk
    write is its own: [permute ks l] is the rearrangement of [l] that the
    keys [ks] describe (each item is inserted, at the position its key
    gives, among the items that follow it in [l]).  Every rearrangement
    of [l] is [permute ks l] for some [ks], and the list itself for no
    keys. *)
Fixpoint permute {A} (ks : list nat) (l : list A) : list A :=
  match l with
  | [] => []
  | x :: rest => insert_at (hd O ks) x (permute (tl ks) rest)
  end.

(** The items of the bulk write sent at instant [t], in the order in
    which the store takes them, each with its index in the list sent: a
    rejected item does not stop the others, and the write errors are
    collected. *)
Fixpoint runOps (e : Env) (t : nat) (ops : list (nat * Draft.t)) : M (list Js.Error) :=
  match ops with
  | [] => ret []
  | (i, product) :: rest =>
      errs ← match bulkRejects e t i with
             | Some err => ret [err]
             | None =>
                 modify (fun s =>
                   set_productModel (updateOne product (productModel s)) s);;
                 ret []
             end;
      more ← runOps e t rest;
      ret (errs ++ more)%list
  end.

(** What the store does with the items of a bulk write that it has
    received: it takes them in an order of its own and rejects the call
    when some item failed. *)
Definition sendItems (bulkOps : list Draft.t) : M unit :=
  e ← gets env;
  t ← gets tick;
  errs ← runOps e t (permute (bulkOrder e t) (imap pair bulkOps));
  match errs with
  | [] => ret tt
  | err :: _ => throw err
  end.

(** [productModel.bulkWrite(bulkOps, { ordered: false })]: one call on
    the store. *)
Definition bulkWrite (bulkOps : list Draft.t) : M unit :=
  modify (record_bulkWrite bulkOps);;
  dbCall (sendItems bulkOps).

Definition upsertBatch (batch : list Draft.t) : M unit :=
  let bulkOps := batch in
  try_catch (bulkWrite bulkOps) (fun error => ret tt).

(** The stub of the source: no product has orders. *)
Definition checkExistingOrders (productId : string) : bool := false.

(** The query of [handleDeletions]:
    [{ 'data.name': { $nin: names }, 'data.isDeleted': { $ne: true } }]. *)
Definition to_delete (importedProductIds : gset string) (p : Product.t) : bool :=
  negb (match ProductData.name (Product.data p) with
        | Some n => bool_decide (n ∈ importedProductIds)
        | None => false
        end)
  && negb (bool_decide (ProductData.isDeleted (Product.data p) = Some true)).

Definition find (importedProductIds : gset string) : M (list Product.t) :=
  dbCall (gets (fun s => filter (fun p => to_delete importedProductIds p = true)
                                (productModel s))).

(** The write of [data.isDeleted = b] to the stored document of [_id]
    [i]; the other documents are not concerned. *)
Definition write_isDeleted (i : nat) (b : option bool) (q : Product.t) : Product.t :=
  if Nat.eqb (Product._id q) i
  then Product.set_data (ProductData.set_isDeleted b (Product.data q)) q
  else q.

(** [product.save()] after [product.data.isDeleted = true]: the one
    modified path is written to the stored document of that [_id]. *)
Definition save (product : Product.t) : M unit :=
  modify (record_save (Product._id product));;
  dbCall (modify (fun s =>
    set_productModel
      (map (write_isDeleted (Product._id product)
              (ProductData.isDeleted (Product.data product)))
           (productModel s)) s)).

(** The ['data'] handler, run for one row from its first statement to
    its last, no other handler running in between. *)
Definition onData (row : Row) : M unit :=
  try_catch
    (if negb (Js.truthy (ManufacturerName row)) then ret tt
     else
       transformedData ← transformRow row;
       match ProductData.name (Draft.data transformedData) with
       | Some name =>
           if String.eqb name "" then ret tt
           else
             modify (push_batch transformedData);;
             modify (fun s =>
               set_importedProductIds ({[ name ]} ∪ importedProductIds s) s);;
             b ← gets batch;
             if Nat.leb batchSize (length b)
             then upsertBatch b;; modify reset_batch
             else ret tt
       | None => ret tt
       end)
    (fun error => ret tt).

(** First half of the ['end'] handler: the remaining partial batch. *)
Definition finalFlush : M unit :=
  b ← gets batch;
  if Nat.ltb 0 (length b) then upsertBatch b else ret tt.

Section Reconciliation.

(** The order check is a collaborator of the orchestrator:
    [handleDeletions] is written against any such predicate. *)
Variable hasOrdersOf : string -> bool.

Fixpoint forEachProduct (productsToDelete : list Product.t) : M unit :=
  match productsToDelete with
  | [] => ret tt
  | product :: rest =>
      let hasOrders := hasOrdersOf (Product.id product) in
      (if negb hasOrders
       then save (Product.set_data
                    (ProductData.set_isDeleted (Some true) (Product.data product))
                    product)
       else ret tt);;
      forEachProduct rest
  end.

Definition handleDeletionsWith (importedProductIds : gset string) : M unit :=
  try_catch
    (productsToDelete ← find importedProductIds;
     forEachProduct productsToDelete)
    (fun error => ret tt).

(** Second half of the ['end'] handler: reconciliation, when enabled. *)
Definition reconcile : M unit :=
  e ← gets env;
  if DELETE_FLAG e
  then (ids ← gets importedProductIds; handleDeletionsWith ids)
  else ret tt.

(** The listeners are [async] functions that the stream does not wait
    for: a handler runs until its next [await] and goes on later, while
    other rows are delivered and other handlers run, and the ['end']
    event is delivered with handlers still waiting.  A task is a handler
    at one of these points.  The calls that a handler awaits
    ([transformRow], [upsertBatch], [handleDeletions]) are taken as a
    whole at the point where the handler goes on. *)
Inductive Task :=
| Data (row : Row)
| Transformed (transformedData : Draft.t)
| Flushed
| End
| EndFlushed.

(** One task up to its next [await]; [None] when the handler is over. *)
Definition step (t : Task) : M (option Task) :=
  match t with
  | Data row =>
      try_catch
        (if negb (Js.truthy (ManufacturerName row)) then ret None
         else
           transformedData ← transformRow row;
           ret (Some (Transformed transformedData)))
        (fun error => ret None)
  | Transformed transformedData =>
      match ProductData.name (Draft.data transformedData) with
      | Some name =>
          if String.eqb name "" then ret None
          else
            modify (push_batch transformedData);;
            modify (fun s =>
              set_importedProductIds ({[ name ]} ∪ importedProductIds s) s);;
            b ← gets batch;
            if Nat.leb batchSize (length b)
            then upsertBatch b;; ret (Some Flushed)
            else ret None
      | None => ret None
      end
  | Flushed => modify reset_batch;; ret None
  | End => finalFlush;; ret (Some EndFlushed)
  | EndFlushed => reconcile;; ret None
  end.

(** The pending handlers once the one of index [i] has taken a step:
    it goes on as [next], or is over. *)
Definition resume (i : nat) (next : option Task) (tasks : list Task) : list Task :=
  match next with
  | Some t' => <[ i := t' ]> tasks
  | None => delete i tasks
  end.

(** The handlers that are pending, run in the order that the scheduler
    of the outside world chooses, for at most [fuel] steps. *)
Fixpoint runTasks (fuel : nat) (tasks : list Task) : M unit :=
  match fuel with
  | O => ret tt
  | S fuel' =>
      match tasks with
      | [] => ret tt
      | _ :: _ =>
          e ← gets env;
          let i := (schedule e fuel' mod length tasks)%nat in
          match tasks !! i with
          | Some t =>
              next ← step t;
              runTasks fuel' (resume i next tasks)
          | None => ret tt
          end
      end
  end.

(** [importProducts]: [file] is the content found at the configured
    path, [None] when there is no such file.  One ['data'] event per row
    and the ['end'] event; a handler takes at most three steps, so the
    fuel lets every handler finish. *)
Definition importProductsWith (file : option (list Row)) : M unit :=
  match file with
  | None => ret tt
  | Some rows =>
      modify reset_batch;;
      modify (set_importedProductIds ∅);;
      runTasks (3 * length rows + 2) (map Data rows ++ [End])
  end.

End Reconciliation.

Definition handleDeletions : gset string -> M unit :=
  handleDeletionsWith checkExistingOrders.

Definition importProducts : option (list Row) -> M unit :=
  importProductsWith checkExistingOrders.

End ProductService.

(** * Vocabulary of the properties *)

(** ** Computations *)

(** [steps R m]: whatever the start and the outcome, [m] moves the state
    along [R]. For a preorder [R] this composes through sequencing and
    [try]/[catch]. *)
Definition steps (R : State -> State -> Prop) {A} (m : M A) : Prop :=
  forall s, R s (snd (m s)).

(** The oracle is never replaced and the clock never runs backwards. *)
Definition world_le (s s' : State) : Prop :=
  env s' = env s /\ (tick s <= tick s')%nat.

(** From the current instant on the store rejects no call, and no item
    of a bulk write. *)
Definition db_accepts (s : State) : Prop :=
  forall t, (tick s <= t)%nat ->
    dbRejects (env s) t = None /\ forall i, bulkRejects (env s) t i = None.

(** ** The enhancer *)

Definition no_choices (r : CompletionResponse) : Prop :=
  match data r with
  | Some d => match choices d with Some (_ :: _) => False | _ => True end
  | None => True
  end.

(** The completion call raised, or answered without choices. *)
Definition completion_failed (o : Outcome CompletionResponse) : Prop :=
  match o with
  | Throw _ => True
  | Ok r => no_choices r
  end.

(** The description as supplied, the empty string when none was. *)
Definition original (description : option string) : string :=
  match description with
  | Some d => d
  | None => ""
  end.

(** ** The row transformer *)


(** ** The resolvers *)

(** A record of the collection answers the lookup for [key]. *)
Definition seen_by_manufacturer (key : Js.number) (s : State) : bool :=
  existsb (fun m => String.eqb (Manufacturer.manufacturerId m) (Js.toString key))
          (manufacturerModel s).
Definition seen_by_vendor (key : Js.number) (s : State) : bool :=
  existsb (fun v => String.eqb (Vendor.vendorId v) (Js.toString key)) (vendorModel s).

(** ** The stores and the run *)

Definition draft_name (d : Draft.t) : option string :=
  ProductData.name (Draft.data d).

Definition product_name (p : Product.t) : option string :=
  ProductData.name (Product.data p).

Definition names (docs : list Product.t) : list (option string) :=
  map product_name docs.

Definition ids (docs : list Product.t) : list nat :=
  map Product._id docs.

(** A stored product with its soft-delete flag raised and nothing else
    changed. *)
Definition flagged (p : Product.t) : Product.t :=
  Product.set_data (ProductData.set_isDeleted (Some true) (Product.data p)) p.

(** [docs'] comes from [docs] by upserts of drafts taken from [ds], each
    applied or not, in any number and order. *)
Inductive upserted (ds : list Draft.t) : list Product.t -> list Product.t -> Prop :=
| upserted_refl docs : upserted ds docs docs
| upserted_step d docs docs' :
    d ∈ ds -> upserted ds (ProductService.updateOne d docs) docs' ->
    upserted ds docs docs'.

(** The computation leaves everything but the products collection and the
    clock as it was. *)
Definition only_products (s s' : State) : Prop :=
  env s' = env s /\ vendorModel s' = vendorModel s /\
  manufacturerModel s' = manufacturerModel s /\ batch s' = batch s /\
  importedProductIds s' = importedProductIds s /\ bulkWrites s' = bulkWrites s /\
  accepted s' = accepted s /\ batchPeak s' = batchPeak s /\
  productSaves s' = productSaves s.

(** The computation leaves everything but the two reference collections
    and the clock as it was: a row that goes no further than this is
    skipped. *)
Definition only_references (s s' : State) : Prop :=
  env s' = env s /\ productModel s' = productModel s /\ batch s' = batch s /\
  importedProductIds s' = importedProductIds s /\ bulkWrites s' = bulkWrites s /\
  accepted s' = accepted s /\ batchPeak s' = batchPeak s /\
  productSaves s' = productSaves s.

(** [only_products], with the products collection reached by upserts of
    drafts of [ds]. *)
Definition upserts_of (ds : list Draft.t) (s s' : State) : Prop :=
  only_products s s' /\ upserted ds (productModel s) (productModel s').

(** A property of the products collection that the computation keeps. *)
Definition keeps (P : list Product.t -> Prop) (s s' : State) : Prop :=
  P (productModel s) -> P (productModel s').

(** ** Reconciliation *)


(** How the pass relates a stored product [q] to what stands in its place
    afterwards: untouched, or flagged, the latter only for a product that
    the query selects and that has no orders. *)
Definition reconciled_by (importedProductIds : gset string)
    (hasOrdersOf : string -> bool) (q q' : Product.t) : Prop :=
  q' = q \/
  (q' = flagged q /\ ProductService.to_delete importedProductIds q = true /\
   hasOrdersOf (Product.id q) = false).

(** The same when the store accepts every call of the pass: selected
    products without orders are flagged, every other product is
    untouched. *)
Definition reconciled (importedProductIds : gset string)
    (hasOrdersOf : string -> bool) (q q' : Product.t) : Prop :=
  if ProductService.to_delete importedProductIds q
  then (if hasOrdersOf (Product.id q) then q' = q else q' = flagged q)
  else q' = q.

(** The pass leaves everything but the products collection, the trace of
    saves and the clock as it was. *)
Definition only_flags (s s' : State) : Prop :=
  env s' = env s /\ vendorModel s' = vendorModel s /\
  manufacturerModel s' = manufacturerModel s /\ batch s' = batch s /\
  importedProductIds s' = importedProductIds s /\ bulkWrites s' = bulkWrites s /\
  accepted s' = accepted s /\ batchPeak s' = batchPeak s.

(** The pass calls [save] only on products of [store] that the query
    selects and that have no orders. *)
Definition saves_within (importedProductIds : gset string)
    (hasOrdersOf : string -> bool) (store : list Product.t) (s s' : State) : Prop :=
  exists X, productSaves s' = (productSaves s ++ X)%list /\
    Forall (fun i => exists q, q ∈ store /\ Product._id q = i /\
              ProductService.to_delete importedProductIds q = true /\
              hasOrdersOf (Product.id q) = false) X.

Definition reconciles (importedProductIds : gset string)
    (hasOrdersOf : string -> bool) (store : list Product.t) (s s' : State) : Prop :=
  only_flags s s' /\
  saves_within importedProductIds hasOrdersOf store s s' /\
  (Forall2 (reconciled_by importedProductIds hasOrdersOf) store (productModel s) ->
   Forall2 (reconciled_by importedProductIds hasOrdersOf) store (productModel s')).

(** Every stored document of [_id] [i] carries the flag. *)
Definition flag_at (i : nat) (docs : list Product.t) : Prop :=
  Forall (fun q => Product._id q = i ->
                   ProductData.isDeleted (Product.data q) = Some true) docs.

(** ** Overwriting by upsert *)

(** The stored document is the draft and nothing else: what a
    full-document replace by [d] would leave. *)
Definition replaced_by (d : Draft.t) (p : Product.t) : Prop :=
  Product.docId p = Draft.docId d /\ Product.data p = Draft.data d /\
  Product.fullData p = None.

(** What [$set] leaves: the paths of the draft are overwritten, the other
    paths of the stored document [p] survive. *)
Definition set_from (d : Draft.t) (p p' : Product.t) : Prop :=
  Product.docId p' = Draft.docId d /\ Product.data p' = Draft.data d /\
  Product._id p' = Product._id p /\ Product.fullData p' = Product.fullData p.

(** The drafts of [b] upserted one after the other, in the order of the
    list [b]. *)
Definition applyAll (b : list Draft.t) (docs : list Product.t) : list Product.t :=
  fold_left (fun l d => ProductService.updateOne d l) b docs.

(** ** Concrete worlds and inputs *)

Module Example.

Definition answer (t : string) : Outcome CompletionResponse :=
  Ok {| data := Some {| choices := Some [ {| text := Some t |} ] |} |}.

(** Nothing fails: ids are drawn as "id0", "id1", ..., the completion
    service answers with one choice, reconciliation is enabled. *)
Definition quiet : Env := {|
  nanoidAt := fun t => "id" ++ pretty t;
  dbRejects := fun _ => None;
  bulkRejects := fun _ _ => None;
  bulkOrder := fun _ => [];
  limiterRejects := fun _ => None;
  completionAt := fun _ _ => answer " Sterile woven gauze. ";
  schedule := fun _ => O;
  DELETE_FLAG := true
|}.

(** The limiter raises and the completion service is down. *)
Definition offline : Env := {|
  nanoidAt := fun t => "id" ++ pretty t;
  dbRejects := fun _ => None;
  bulkRejects := fun _ _ => None;
  bulkOrder := fun _ => [];
  limiterRejects := fun _ => Some (Js.mkError "limiter stopped");
  completionAt := fun _ _ => Throw (Js.mkError "503");
  schedule := fun _ => O;
  DELETE_FLAG := true
|}.

(** The database is unreachable. *)
Definition db_down : Env := {|
  nanoidAt := fun t => "id" ++ pretty t;
  dbRejects := fun _ => Some (Js.mkError "ECONNREFUSED");
  bulkRejects := fun _ _ => None;
  bulkOrder := fun _ => [];
  limiterRejects := fun _ => None;
  completionAt := fun _ _ => answer " Sterile woven gauze. ";
  schedule := fun _ => O;
  DELETE_FLAG := true
|}.

(** A fresh run over the given collections. *)
Definition start (e : Env) (products : list Product.t) : State :=
  Build_State e 0 [] [] products [] ∅ [] [] 0 [].

(** The row of the specification's example. *)
Definition gauze : Row := {|
  ProductID := Some "1";
  ProductName := Some "Gauze";
  ProductDescription := None;
  PrimaryCategoryName := None;
  PriceDescription := None;
  ManufacturerID := Some "77";
  ManufacturerName := Some "Acme";
  ManufacturerItemCode := Some "GZ1";
  ItemDescription := None;
  NDCItemCode := None;
  PKG := Some "BX";
  UnitPrice := Some "2.50";
  Availability := Some "Available";
  ImageFileName := None;
  ItemImageURL := None
|}.

(** A row for the product "Tape" whose manufacturer name is missing. *)
Definition tape_unnamed : Row := {|
  ProductID := Some "2";
  ProductName := Some "Tape";
  ProductDescription := None;
  PrimaryCategoryName := None;
  PriceDescription := None;
  ManufacturerID := Some "78";
  ManufacturerName := None;
  ManufacturerItemCode := Some "TP1";
  ItemDescription := None;
  NDCItemCode := None;
  PKG := Some "RL";
  UnitPrice := Some "n/a";
  Availability := Some "Backorder";
  ImageFileName := None;
  ItemImageURL := None
|}.

(** A product as an earlier import left it in the store. *)
Definition stored (id : nat) (name docId : string) (fullData : option string)
    (isDeleted : option bool) : Product.t :=
  Product.mk id docId fullData
    (ProductData.mk (Some name) "non-inventory" "" "" "v" "m" "members-only" []
       isDeleted).

(** A draft for the product [name]. *)
Definition draft (name docId : string) : Draft.t :=
  Draft.mk docId
    (ProductData.mk (Some name) "non-inventory" "" "new text" "v2" "m2"
       "members-only" [] None).

(** Three products of earlier imports: "Gauze", "Tape" and "Swab"; the
    last one has orders. *)
Definition shelf : list Product.t :=
  [ stored 1 "Gauze" "d1" (Some "legacy") None;
    stored 2 "Tape" "d2" None None;
    stored 3 "Swab" "d3" None None ].

Definition swab_has_orders (productId : string) : bool := String.eqb productId "3".

End Example.

(** ** The enhancer, continued *)

(** The text of the first choice of a completion answer, when the answer
    came back with choices and that choice carries a text. *)
Definition first_text (o : Outcome CompletionResponse) : option string :=
  match o with
  | Ok r =>
      match data r with
      | Some d =>
          match choices d with
          | Some (c :: _) => text c
          | _ => None
          end
      | None => None
      end
  | Throw _ => None
  end.

(** A description that is missing, empty or made of white space only. *)
Definition no_description (description : option string) : bool :=
  match description with
  | Some d => Js.blank d
  | None => true
  end.

(** The head of the prompt: what [constructPrompt] writes before it looks
    at the description. *)
Definition promptHead (name category : option string) : string :=
  "You are an expert in medical sales specializing in medical consumables used by hospitals daily. Enhance the product description based on the information provided."
  ++ DescriptionEnhancerService.lf ++ DescriptionEnhancerService.lf
  ++ "Product name: " ++ Js.template name ++ DescriptionEnhancerService.lf
  ++ "Category: " ++ Js.template category ++ DescriptionEnhancerService.lf.
(** ** The resolvers, continued *)

(** What one call of the manufacturer resolver may do, by outcome: on a
    stored key, the key's own string comes back and nothing is written; on
    a key that is not stored, the id that comes back is the id of the one
    record appended; when the call raises, the error is one the store
    raised and nothing is written. The other collections are not
    touched. *)
Definition manufacturer_resolved (key : Js.number) (name : option string)
    (s : State) (r : Outcome string * State) : Prop :=
  vendorModel (snd r) = vendorModel s /\ productModel (snd r) = productModel s /\
  match fst r with
  | Ok id =>
      (seen_by_manufacturer key s = true /\ id = Js.toString key /\
       manufacturerModel (snd r) = manufacturerModel s) \/
      (seen_by_manufacturer key s = false /\
       manufacturerModel (snd r) = (manufacturerModel s ++ [Manufacturer.mk id name])%list)
  | Throw e =>
      manufacturerModel (snd r) = manufacturerModel s /\
      exists t, (tick s <= t)%nat /\ dbRejects (env s) t = Some e
  end.

(** The same for the vendor resolver. *)
Definition vendor_resolved (key : Js.number) (name : option string)
    (s : State) (r : Outcome string * State) : Prop :=
  manufacturerModel (snd r) = manufacturerModel s /\ productModel (snd r) = productModel s /\
  match fst r with
  | Ok id =>
      (seen_by_vendor key s = true /\ id = Js.toString key /\
       vendorModel (snd r) = vendorModel s) \/
      (seen_by_vendor key s = false /\
       vendorModel (snd r) = (vendorModel s ++ [Vendor.mk id name])%list)
  | Throw e =>
      vendorModel (snd r) = vendorModel s /\
      exists t, (tick s <= t)%nat /\ dbRejects (env s) t = Some e
  end.

(** The computation leaves the three collections as they were. *)
Definition no_write (s s' : State) : Prop :=
  vendorModel s' = vendorModel s /\ manufacturerModel s' = manufacturerModel s /\
  productModel s' = productModel s.
(** ** Bulk upserts, continued *)

(** The document that the upsert of [d] inserts into [docs]. *)
Definition inserted (d : Draft.t) (docs : list Product.t) : Product.t :=
  Product.mk (ProductService.fresh_id docs) (Draft.docId d) None (Draft.data d).

(** The first stored document of a name holds what the draft [d] holds. *)
Definition holds (d : Draft.t) (docs : list Product.t) : Prop :=
  exists p, List.find (ProductService.name_matches (draft_name d)) docs = Some p /\
            Product.docId p = Draft.docId d /\ Product.data p = Draft.data d.
(** ** Reconciliation, continued *)

(** The products of [l] that the loop of the pass saves, when the next
    [save] is sent at instant [t]: a product with orders is passed over,
    and the first rejected [save] ends the loop. *)
Fixpoint saved (hasOrdersOf : string -> bool) (e : Env) (t : nat)
    (l : list Product.t) : list Product.t :=
  match l with
  | [] => []
  | p :: rest =>
      if hasOrdersOf (Product.id p) then saved hasOrdersOf e t rest
      else match dbRejects e t with
           | None => p :: saved hasOrdersOf e (S t) rest
           | Some _ => []
           end
  end.

(** The stored product [q] after the saves of the products [l]: flagged
    when its [_id] is the [_id] of one of them. *)
Definition flag_those (l : list Product.t) (q : Product.t) : Product.t :=
  if bool_decide (Product._id q ∈ ids l) then flagged q else q.

(** What the query of the pass selects in the store of [s]. *)
Definition selected (importedProductIds : gset string) (s : State) : list Product.t :=
  filter (fun p => ProductService.to_delete importedProductIds p = true) (productModel s).
(** ** The run, continued *)

(** The rows that the ['data'] handler does not skip when the store
    accepts every call: a manufacturer name and a product name, both
    defined and non-empty. *)
Definition usable (row : Row) : bool :=
  Js.truthy (ManufacturerName row) && Js.truthy (ProductName row).

(** The two reference collections only grow, at their end. *)
Definition references_grow (s s' : State) : Prop :=
  vendorModel s `prefix_of` vendorModel s' /\
  manufacturerModel s `prefix_of` manufacturerModel s'.

(** What no write to the products collection touches in a stored
    document. *)
Definition identity (p : Product.t) : nat * option string :=
  (Product._id p, Product.fullData p).
(** ** The handlers of a run *)

(** The steps that a handler may still take. *)
Definition weight (t : ProductService.Task) : nat :=
  match t with
  | ProductService.Data _ => 3
  | ProductService.Transformed _ => 2
  | ProductService.Flushed => 1
  | ProductService.End => 2
  | ProductService.EndFlushed => 1
  end.

Definition weights (tasks : list ProductService.Task) : nat :=
  sum_list (map weight tasks).

(** The ['end'] handler, at one of its two points. *)
Definition is_end (t : ProductService.Task) : bool :=
  match t with
  | ProductService.End | ProductService.EndFlushed => true
  | _ => false
  end.

(** The number of pending ['end'] handlers: one until the
    reconciliation has run, none afterwards. *)
Definition ends (tasks : list ProductService.Task) : nat :=
  sum_list (map (fun t => if is_end t then 1 else 0)%nat tasks).

(** [T] holds of the rows still to be handled and [D] of the drafts
    that handlers carry. *)
Definition task_ok (T : Row -> Prop) (D : Draft.t -> Prop) (t : ProductService.Task) : Prop :=
  match t with
  | ProductService.Data row => T row
  | ProductService.Transformed d => D d
  | _ => True
  end.


(** ** A store that is down *)

(** Every database call is rejected from the current instant on. *)
Definition db_rejects (s : State) : Prop :=
  forall t, (tick s <= t)%nat -> dbRejects (env s) t <> None.
(** ** More worlds *)

Module Scenario.

(** As [Example.quiet], with reconciliation disabled. *)
Definition no_flag : Env := {|
  nanoidAt := nanoidAt Example.quiet;
  dbRejects := dbRejects Example.quiet;
  bulkRejects := bulkRejects Example.quiet;
  bulkOrder := bulkOrder Example.quiet;
  limiterRejects := limiterRejects Example.quiet;
  completionAt := completionAt Example.quiet;
  schedule := fun _ => O;
  DELETE_FLAG := false
|}.

(** As [Example.quiet], but the store rejects the call made at instant
    [n], and that call only. *)
Definition rejecting_at (n : nat) : Env := {|
  nanoidAt := nanoidAt Example.quiet;
  dbRejects := fun t => if Nat.eqb t n then Some (Js.mkError "write conflict") else None;
  bulkRejects := bulkRejects Example.quiet;
  bulkOrder := bulkOrder Example.quiet;
  limiterRejects := limiterRejects Example.quiet;
  completionAt := completionAt Example.quiet;
  schedule := fun _ => O;
  DELETE_FLAG := true
|}.

(** The completion service answers with a first choice that has no
    text. *)
Definition textless : Env := {|
  nanoidAt := nanoidAt Example.quiet;
  dbRejects := dbRejects Example.quiet;
  bulkRejects := bulkRejects Example.quiet;
  bulkOrder := bulkOrder Example.quiet;
  limiterRejects := limiterRejects Example.quiet;
  completionAt := fun _ _ => Ok {| data := Some {| choices := Some [ {| text := None |} ] |} |};
  schedule := fun _ => O;
  DELETE_FLAG := true
|}.

(** As [Example.quiet], but the store rejects the item of index [i] of
    every bulk write, and takes the items of a bulk write of two in the
    reverse order. *)
Definition unruly (i : nat) : Env := {|
  nanoidAt := nanoidAt Example.quiet;
  dbRejects := dbRejects Example.quiet;
  bulkRejects := fun _ j => if Nat.eqb j i then Some (Js.mkError "write conflict") else None;
  bulkOrder := fun _ => [1%nat];
  limiterRejects := limiterRejects Example.quiet;
  completionAt := completionAt Example.quiet;
  schedule := fun _ => O;
  DELETE_FLAG := true
|}.

(** As [Example.quiet], but the scheduler lets the handler that was
    registered last go on first: the ['end'] handler overtakes the
    rows. *)
Definition eager_end : Env := {|
  nanoidAt := nanoidAt Example.quiet;
  dbRejects := dbRejects Example.quiet;
  bulkRejects := bulkRejects Example.quiet;
  bulkOrder := bulkOrder Example.quiet;
  limiterRejects := limiterRejects Example.quiet;
  completionAt := completionAt Example.quiet;
  schedule := fun _ => 1%nat;
  DELETE_FLAG := true
|}.

End Scenario.

(** * Properties *)

(** ** Reasoning about computations *)

Section Steps.

Context (R : State -> State -> Prop) `{!PreOrder R}.

Lemma steps_ret {A} (a : A) : steps R (ret a).
Proof. intros s. simpl. reflexivity. Qed.

Lemma steps_throw {A} (e : Js.Error) : steps R (@throw A e).
Proof. intros s. simpl. reflexivity. Qed.

Lemma steps_gets {A} (f : State -> A) : steps R (gets f).
Proof. intros s. simpl. reflexivity. Qed.

Lemma steps_modify (f : State -> State) :
  (forall s, R s (f s)) -> steps R (modify f).
Proof. intros H s. simpl. apply H. Qed.

Lemma steps_bind {A B} (m : M A) (k : A -> M B) :
  steps R m -> (forall a, steps R (k a)) -> steps R (bind m k).
Proof.
  intros Hm Hk s. unfold bind.
  specialize (Hm s). destruct (m s) as [[a | e] s1]; simpl in *.
  - transitivity s1; [exact Hm | apply Hk].
  - exact Hm.
Qed.

Lemma steps_try_catch {A} (body : M A) (handler : Js.Error -> M A) :
  steps R body -> (forall e, steps R (handler e)) -> steps R (try_catch body handler).
Proof.
  intros Hb Hh s. unfold try_catch.
  specialize (Hb s). destruct (body s) as [[a | e] s1]; simpl in *.
  - exact Hb.
  - transitivity s1; [exact Hb | apply Hh].
Qed.

Lemma steps_next_tick :
  (forall s, R s (set_tick (S (tick s)) s)) -> steps R next_tick.
Proof. intros H s. simpl. apply H. Qed.

Lemma steps_nanoid :
  (forall s, R s (set_tick (S (tick s)) s)) -> steps R nanoid.
Proof.
  intros H. unfold nanoid. apply steps_bind; [by apply steps_next_tick |].
  intros t. apply steps_bind; [apply steps_gets |]. intros e. apply steps_ret.
Qed.

Lemma steps_dbCall {A} (op : M A) :
  (forall s, R s (set_tick (S (tick s)) s)) -> steps R op -> steps R (dbCall op).
Proof.
  intros H Hop. unfold dbCall. apply steps_bind; [by apply steps_next_tick |].
  intros t. apply steps_bind; [apply steps_gets |]. intros e.
  destruct (dbRejects e t); [apply steps_throw | exact Hop].
Qed.

End Steps.

(** Splits a goal [steps R m] along the structure of [m]; what remains are
    the obligations on the state updates of [m]. *)
Ltac steps_step :=
  lazymatch goal with
  | |- steps _ (ret _) => apply steps_ret
  | |- steps _ (throw _) => apply steps_throw
  | |- steps _ (gets _) => apply steps_gets
  | |- steps _ (modify _) => apply steps_modify
  | |- steps _ (bind _ _) => apply steps_bind
  | |- steps _ (mbind _ _) => apply steps_bind
  | |- steps _ (try_catch _ _) => apply steps_try_catch
  | |- steps _ nanoid => apply steps_nanoid
  | |- steps _ next_tick => apply steps_next_tick
  | |- steps _ (dbCall _) => apply steps_dbCall
  | |- steps _ (match ?x with _ => _ end) => destruct x eqn:?
  | |- forall _, steps _ _ => intro
  end.

Ltac steps_split := repeat steps_step; try exact _.

#[global] Instance world_le_preorder : PreOrder world_le.
Proof.
  split.
  - intros s. split; [reflexivity | lia].
  - intros s1 s2 s3 [H1 H2] [H3 H4]. split; [congruence | lia].
Qed.

(** One call to the database, unfolded. *)
Lemma dbCall_run {A} (op : M A) s :
  dbCall op s =
    match dbRejects (env s) (tick s) with
    | Some err => (Throw err, set_tick (S (tick s)) s)
    | None => op (set_tick (S (tick s)) s)
    end.
Proof.
  unfold dbCall, mbind, M_bind, bind, next_tick, gets, throw. cbn.
  by destruct (dbRejects (env s) (tick s)).
Qed.

Ltac world_steps := steps_split; intros; split; simpl; auto.

Lemma db_accepts_le s s' : world_le s s' -> db_accepts s -> db_accepts s'.
Proof.
  intros [He Ht] H t Hle. rewrite He. apply H. lia.
Qed.

Lemma db_accepts_call s t : db_accepts s -> (tick s <= t)%nat -> dbRejects (env s) t = None.
Proof. intros H Ht. by apply H. Qed.

Lemma db_accepts_now s : db_accepts s -> dbRejects (env s) (tick s) = None.
Proof. intros H. by apply H. Qed.

Lemma db_accepts_tick s n : db_accepts s -> (tick s <= n)%nat -> db_accepts (set_tick n s).
Proof. intros H Hn t Ht. cbn in *. apply H. lia. Qed.

Lemma nanoid_world : steps world_le nanoid.
Proof. world_steps. Qed.

(** ** Binary64 facts used by the transformer *)

Section FloatFacts.











End FloatFacts.


Lemma or_str_original description : Js.or_str description "" = original description.
Proof.
  destruct description as [d |]; simpl; [| reflexivity].
  destruct (String.eqb_spec d ""); congruence.
Qed.

(** ** The description enhancer *)

Section Enhancer.

Import DescriptionEnhancerService.

Lemma enhanceDescription_world n c d : steps world_le (enhanceDescription n c d).
Proof.
  unfold enhanceDescription, removeTokens, createCompletion.
  world_steps.
Qed.

(** The enhancer returns in every world. *)
Lemma enhanceDescription_returns name category description s :
  exists r, fst (enhanceDescription name category description s) = Ok r.
Proof.
  unfold enhanceDescription, removeTokens, createCompletion.
  unfold mbind, M_bind, bind, try_catch, next_tick, gets, ret, throw. simpl.
  destruct (limiterRejects (env s) (tick s)); simpl;
    (destruct (completionAt (env s) _ _)
       as [[[[[[| [[t |]] cs] |]] |]] | err]; simpl; eauto).
Qed.

(** C4: whatever the name, the category, the description and the world
    (so also when the rate limiter raises), [enhanceDescription] returns a
    string and never raises; and when the completion call raises or comes
    back without choices, the string returned is the description that was
    passed in, or the empty string when none was passed. *)
Theorem enhanceDescription_best_effort name category description s :
  (exists r, fst (enhanceDescription name category description s) = Ok r) /\
  (completion_failed
     (completionAt (env s) (S (tick s)) (constructPrompt name category description)) ->
   fst (enhanceDescription name category description s) = Ok (original description)).
Proof.
  rewrite <- or_str_original.
  unfold enhanceDescription, removeTokens, createCompletion, completion_failed, no_choices.
  unfold mbind, M_bind, bind, try_catch, next_tick, gets, ret, throw. simpl.
  destruct (limiterRejects (env s) (tick s)); simpl;
    (destruct (completionAt (env s) (S (tick s)) _)
       as [[[[[[| [[t |]] cs] |]] |]] | err]; simpl;
     split; eauto; try contradiction).
Qed.

End Enhancer.

(** ** The resolvers *)

Lemma getManufacturerId_world k n :
  steps world_le (ManufacturerService.getManufacturerId k n).
Proof.
  unfold ManufacturerService.getManufacturerId, ManufacturerService.findOne,
    ManufacturerService.save.
  world_steps.
Qed.

Lemma getVendorId_world k n : steps world_le (VendorService.getVendorId k n).
Proof.
  unfold VendorService.getVendorId, VendorService.findOne, VendorService.save.
  world_steps.
Qed.

Lemma getVendorId_accepted k n s :
  db_accepts s -> exists id, fst (VendorService.getVendorId k n s) = Ok id.
Proof.
  intros H.
  unfold VendorService.getVendorId, VendorService.findOne, VendorService.save,
    dbCall, nanoid.
  unfold mbind, M_bind, bind, try_catch, next_tick, gets, modify, ret, throw. simpl.
  rewrite (db_accepts_call s (tick s) H) by lia. simpl.
  destruct (List.find _ _); simpl; [eauto |].
  rewrite (db_accepts_call s (S (S (tick s))) H) by lia. simpl. eauto.
Qed.

Lemma getManufacturerId_accepted k n s :
  db_accepts s -> exists id, fst (ManufacturerService.getManufacturerId k n s) = Ok id.
Proof.
  intros H.
  unfold ManufacturerService.getManufacturerId, ManufacturerService.findOne,
    ManufacturerService.save, dbCall, nanoid.
  unfold mbind, M_bind, bind, try_catch, next_tick, gets, modify, ret, throw. simpl.
  rewrite (db_accepts_call s (tick s) H) by lia. simpl.
  destruct (List.find _ _); simpl; [eauto |].
  rewrite (db_accepts_call s (S (S (tick s))) H) by lia. simpl. eauto.
Qed.

(** ** The row transformer *)

Section Transformer.

Import ProductService.

Lemma transformRow_world row : steps world_le (transformRow row).
Proof.
  unfold transformRow. steps_split.
  - apply nanoid_world.
  - apply getVendorId_world.
  - apply getManufacturerId_world.
  - apply enhanceDescription_world.
  - apply nanoid_world.
Qed.


(** A draft is returned whenever the store accepts the calls of the two
    resolvers. *)
Lemma transformRow_accepted row s :
  db_accepts s -> exists d s', transformRow row s = (Ok d, s').
Proof.
  intros H. unfold transformRow. unfold mbind, M_bind, bind.
  pose proof (nanoid_world s) as W1.
  destruct (nanoid s) as [[docId | ?] s1] eqn:E1; [| discriminate E1].
  simpl in W1. apply (db_accepts_le _ _ W1) in H.
  pose proof (getVendorId_world (Js.parseInt (ManufacturerID row))
                (ManufacturerName row) s1) as W2.
  destruct (getVendorId_accepted (Js.parseInt (ManufacturerID row))
              (ManufacturerName row) s1 H) as [vendorId Hv].
  destruct (VendorService.getVendorId _ _ s1) as [r2 s2]. simpl in *. subst r2.
  apply (db_accepts_le _ _ W2) in H.
  destruct (getManufacturerId_accepted (Js.parseInt (ManufacturerID row))
              (ManufacturerName row) s2 H) as [manufacturerId Hm].
  destruct (ManufacturerService.getManufacturerId _ _ s2) as [r3 s3]. simpl in *. subst r3.
  destruct (enhanceDescription_returns (ProductName row) (PrimaryCategoryName row)
              (ProductDescription row) s3) as [descr Hd].
  destruct (DescriptionEnhancerService.enhanceDescription _ _ _ s3) as [r4 s4].
  simpl in *. subst r4.
  destruct (nanoid s4) as [[variantId | ?] s5] eqn:E5; [| discriminate E5].
  unfold ret. eauto.
Qed.


End Transformer.

(** ** The resolvers on a key they have not stored *)

Lemma find_none_existsb {A} (f : A -> bool) l : existsb f l = false -> List.find f l = None.
Proof.
  induction l as [| x l IH]; simpl; [reflexivity |].
  destruct (f x); simpl; [discriminate | exact IH].
Qed.

Lemma existsb_snoc {A} (f : A -> bool) l x :
  existsb f (l ++ [x])%list = existsb f l || f x.
Proof. rewrite existsb_app. simpl. by rewrite orb_false_r. Qed.

Section Resolvers.

Import ManufacturerService.

Lemma getManufacturerId_unseen key name s :
  db_accepts s -> seen_by_manufacturer key s = false ->
  getManufacturerId key name s =
    (Ok (nanoidAt (env s) (S (tick s))),
     set_manufacturerModel
       (manufacturerModel s ++ [Manufacturer.mk (nanoidAt (env s) (S (tick s))) name])
       (set_tick (3 + tick s) s)).
Proof.
  intros H Hs. apply find_none_existsb in Hs.
  unfold getManufacturerId, findOne, save, dbCall, nanoid.
  unfold mbind, M_bind, bind, try_catch, next_tick, gets, modify, ret, throw. simpl.
  rewrite (db_accepts_call s (tick s) H) by lia. simpl. rewrite Hs. simpl.
  rewrite (db_accepts_call s (S (S (tick s))) H) by lia. simpl. reflexivity.
Qed.

Lemma getManufacturerId_twice key name s :
  db_accepts s -> seen_by_manufacturer key s = false ->
  nanoidAt (env s) (1 + tick s) <> Js.toString key ->
  let id1 := nanoidAt (env s) (1 + tick s) in
  let id2 := nanoidAt (env s) (4 + tick s) in
  let s1 := snd (getManufacturerId key name s) in
  let s2 := snd (getManufacturerId key name s1) in
  fst (getManufacturerId key name s) = Ok id1 /\
  fst (getManufacturerId key name s1) = Ok id2 /\
  manufacturerModel s2 =
    (manufacturerModel s ++ [Manufacturer.mk id1 name; Manufacturer.mk id2 name])%list.
Proof.
  intros H Hs Hne. simpl.
  rewrite (getManufacturerId_unseen key name s H Hs). simpl.
  split; [reflexivity |].
  rewrite getManufacturerId_unseen; simpl.
  - split; [reflexivity |]. by rewrite <- app_assoc.
  - intros t Ht. simpl in *. apply H. lia.
  - unfold seen_by_manufacturer in *. simpl. rewrite existsb_snoc, Hs. simpl.
    by apply String.eqb_neq.
Qed.

End Resolvers.

Section ResolversTwice.

Import VendorService.

Lemma getVendorId_unseen key name s :
  db_accepts s -> seen_by_vendor key s = false ->
  getVendorId key name s =
    (Ok (nanoidAt (env s) (S (tick s))),
     set_vendorModel
       (vendorModel s ++ [Vendor.mk (nanoidAt (env s) (S (tick s))) name])
       (set_tick (3 + tick s) s)).
Proof.
  intros H Hs. apply find_none_existsb in Hs.
  unfold getVendorId, findOne, save, dbCall, nanoid.
  unfold mbind, M_bind, bind, try_catch, next_tick, gets, modify, ret, throw. simpl.
  rewrite (db_accepts_call s (tick s) H) by lia. simpl. rewrite Hs. simpl.
  rewrite (db_accepts_call s (S (S (tick s))) H) by lia. simpl. reflexivity.
Qed.

Lemma getVendorId_twice key name s :
  db_accepts s -> seen_by_vendor key s = false ->
  nanoidAt (env s) (1 + tick s) <> Js.toString key ->
  let id1 := nanoidAt (env s) (1 + tick s) in
  let id2 := nanoidAt (env s) (4 + tick s) in
  let s1 := snd (getVendorId key name s) in
  let s2 := snd (getVendorId key name s1) in
  fst (getVendorId key name s) = Ok id1 /\
  fst (getVendorId key name s1) = Ok id2 /\
  vendorModel s2 = (vendorModel s ++ [Vendor.mk id1 name; Vendor.mk id2 name])%list.
Proof.
  intros H Hs Hne. simpl.
  rewrite (getVendorId_unseen key name s H Hs). simpl.
  split; [reflexivity |].
  rewrite getVendorId_unseen; simpl.
  - split; [reflexivity |]. by rewrite <- app_assoc.
  - intros t Ht. simpl in *. apply H. lia.
  - unfold seen_by_vendor in *. simpl. rewrite existsb_snoc, Hs. simpl.
    by apply String.eqb_neq.
Qed.

(** The path that does work: a record whose stored id is the key itself
    is found, its id returned, and nothing is persisted. *)
Lemma getManufacturerId_found key name s m :
  dbRejects (env s) (tick s) = None ->
  List.find (fun m => String.eqb (Manufacturer.manufacturerId m) (Js.toString key))
            (manufacturerModel s) = Some m ->
  ManufacturerService.getManufacturerId key name s =
    (Ok (Manufacturer.manufacturerId m), set_tick (S (tick s)) s).
Proof.
  intros H Hf.
  unfold ManufacturerService.getManufacturerId, ManufacturerService.findOne.
  unfold mbind, M_bind, bind. rewrite dbCall_run, H. unfold gets. cbn.
  by rewrite Hf.
Qed.

End ResolversTwice.

(** C1: what the resolvers do on a key they have not stored, in a world
    where the store accepts the calls: the first call mints an id and
    persists a record under that id, not under the key; the lookup of the
    second call compares stored ids with the key, finds nothing, mints
    another id and persists a second record. The two calls agree only if
    [nanoid] repeats itself. *)
Theorem resolver_second_call_mints_again key name s :
  db_accepts s ->
  seen_by_manufacturer key s = false ->
  seen_by_vendor key s = false ->
  nanoidAt (env s) (1 + tick s) <> Js.toString key ->
  let id1 := nanoidAt (env s) (1 + tick s) in
  let id2 := nanoidAt (env s) (4 + tick s) in
  (let s1 := snd (ManufacturerService.getManufacturerId key name s) in
   let s2 := snd (ManufacturerService.getManufacturerId key name s1) in
   fst (ManufacturerService.getManufacturerId key name s) = Ok id1 /\
   fst (ManufacturerService.getManufacturerId key name s1) = Ok id2 /\
   manufacturerModel s2 =
     (manufacturerModel s ++ [Manufacturer.mk id1 name; Manufacturer.mk id2 name])%list) /\
  (let s1 := snd (VendorService.getVendorId key name s) in
   let s2 := snd (VendorService.getVendorId key name s1) in
   fst (VendorService.getVendorId key name s) = Ok id1 /\
   fst (VendorService.getVendorId key name s1) = Ok id2 /\
   vendorModel s2 = (vendorModel s ++ [Vendor.mk id1 name; Vendor.mk id2 name])%list).
Proof.
  intros Hdb Hm Hv Hne. split.
  - by apply getManufacturerId_twice.
  - by apply getVendorId_twice.
Qed.

(** ** Frames of the orchestrator *)

Import ProductService.

#[global] Instance only_products_preorder : PreOrder only_products.
Proof.
  split.
  - intros s. repeat split.
  - intros s1 s2 s3 H1 H2. unfold only_products in *.
    destruct H1 as (?&?&?&?&?&?&?&?&?), H2 as (?&?&?&?&?&?&?&?&?).
    repeat split; congruence.
Qed.

#[global] Instance only_references_preorder : PreOrder only_references.
Proof.
  split.
  - intros s. repeat split.
  - intros s1 s2 s3 H1 H2. unfold only_references in *.
    destruct H1 as (?&?&?&?&?&?&?&?), H2 as (?&?&?&?&?&?&?&?).
    repeat split; congruence.
Qed.

Ltac frame_steps := steps_split; intros; repeat split; simpl; auto.

Lemma transformRow_only_references row : steps only_references (transformRow row).
Proof.
  unfold transformRow, VendorService.getVendorId, VendorService.findOne, VendorService.save,
    ManufacturerService.getManufacturerId, ManufacturerService.findOne,
    ManufacturerService.save, DescriptionEnhancerService.enhanceDescription,
    DescriptionEnhancerService.removeTokens, DescriptionEnhancerService.createCompletion.
  frame_steps.
Qed.

(** *** Upserts on the list of stored products *)

Lemma name_matches_spec n p : name_matches n p = true <-> product_name p = n.
Proof. unfold name_matches. apply bool_decide_eq_true. Qed.

Lemma existsb_name_matches n docs :
  existsb (name_matches n) docs = true <-> n ∈ names docs.
Proof.
  rewrite existsb_exists. unfold names. rewrite list_elem_of_fmap. split.
  - intros (p & Hin & Hm). exists p. apply name_matches_spec in Hm.
    split; [done | by apply list_elem_of_In].
  - intros (p & -> & Hin). exists p. split; [by apply list_elem_of_In |].
    by apply name_matches_spec.
Qed.

Lemma update_first_names d docs :
  names (update_first (draft_name d) d docs) = names docs.
Proof.
  induction docs as [| p docs IH]; simpl; [reflexivity |].
  destruct (name_matches (draft_name d) p) eqn:E; simpl.
  - apply name_matches_spec in E. unfold product_name in *. simpl. by rewrite E.
  - by rewrite IH.
Qed.


Lemma updateOne_names d docs :
  names (updateOne d docs) =
    if existsb (name_matches (draft_name d)) docs then names docs
    else (names docs ++ [draft_name d])%list.
Proof.
  unfold updateOne. fold (draft_name d).
  destruct (existsb _ docs); [apply update_first_names |].
  unfold names. by rewrite map_app.
Qed.

Lemma updateOne_NoDup_names d docs :
  NoDup (names docs) -> NoDup (names (updateOne d docs)).
Proof.
  intros H. rewrite updateOne_names.
  destruct (existsb _ docs) eqn:E; [exact H |].
  apply NoDup_app. split; [exact H |]. split; [| apply NoDup_singleton].
  intros x Hx Hx'. apply list_elem_of_singleton in Hx'. subst x.
  apply existsb_name_matches in Hx. congruence.
Qed.

Lemma fresh_id_gt docs i : i ∈ ids docs -> (i < fresh_id docs)%nat.
Proof.
  unfold fresh_id, ids. intros H.
  assert (i <= list_max (map Product._id docs))%nat; [| lia].
  induction docs as [| p docs IH]; simpl in *.
  - by apply elem_of_nil in H.
  - apply elem_of_cons in H as [-> | H]; [lia |]. specialize (IH H). lia.
Qed.


(** An upsert under another name leaves a stored product in place. *)
Lemma update_first_other n d docs p :
  product_name p <> n -> p ∈ docs -> p ∈ update_first n d docs.
Proof.
  intros Hne. induction docs as [| q docs IH]; simpl; intros Hin; [done |].
  destruct (name_matches n q) eqn:E.
  - apply elem_of_cons in Hin as [-> | Hin].
    + apply name_matches_spec in E. congruence.
    + by apply elem_of_cons; right.
  - apply elem_of_cons in Hin as [-> | Hin]; apply elem_of_cons; auto.
Qed.

Lemma updateOne_other d docs p :
  product_name p <> draft_name d -> p ∈ docs -> p ∈ updateOne d docs.
Proof.
  intros Hne Hin. unfold updateOne. fold (draft_name d). destruct (existsb _ docs).
  - by apply update_first_other.
  - apply elem_of_app. by left.
Qed.

Lemma upserted_trans ds docs1 docs2 docs3 :
  upserted ds docs1 docs2 -> upserted ds docs2 docs3 -> upserted ds docs1 docs3.
Proof.
  induction 1 as [| d docs docs' Hd H IH]; [auto |].
  intros H3. eapply upserted_step; eauto.
Qed.

Lemma upserted_mono ds ds' docs docs' :
  ds ⊆ ds' -> upserted ds docs docs' -> upserted ds' docs docs'.
Proof.
  intros Hsub. induction 1 as [| d docs docs' Hd H IH]; [constructor |].
  eapply upserted_step; eauto.
Qed.

(** What every upsert of a draft of [ds] preserves is preserved. *)
Lemma upserted_preserves (P : list Product.t -> Prop) ds docs docs' :
  (forall d l, d ∈ ds -> P l -> P (updateOne d l)) ->
  upserted ds docs docs' -> P docs -> P docs'.
Proof.
  intros HP. induction 1 as [| d docs docs' Hd H IH]; [auto |].
  intros H0. apply IH, HP; auto.
Qed.

(** ** The handlers of the stream *)

Arguments ProductService.batchSize : simpl never.

#[global] Instance upserts_of_preorder ds : PreOrder (upserts_of ds).
Proof.
  split.
  - intros s. split; [reflexivity | constructor].
  - intros s1 s2 s3 [F1 U1] [F2 U2]. split; [by transitivity s2 |].
    by eapply upserted_trans.
Qed.

Lemma upserts_of_mono ds ds' {A} (m : M A) :
  ds ⊆ ds' -> steps (upserts_of ds) m -> steps (upserts_of ds') m.
Proof.
  intros Hsub H s. destruct (H s) as [F U]. split; [exact F |].
  by eapply upserted_mono.
Qed.

Lemma insert_at_perm {A} n (x : A) l : insert_at n x l ≡ₚ x :: l.
Proof.
  revert l. induction n as [| n IH]; intros [| y l]; cbn; try reflexivity.
  rewrite IH. apply Permutation_swap.
Qed.

(** The store takes every item of the list sent, once. *)
Lemma permute_perm {A} ks (l : list A) : permute ks l ≡ₚ l.
Proof.
  revert ks. induction l as [| x l IH]; intros ks; cbn; [reflexivity |].
  by rewrite insert_at_perm, IH.
Qed.

Lemma permute_no_keys {A} (l : list A) : permute [] l = l.
Proof. induction l as [| x l IH]; cbn; [reflexivity | by rewrite IH]. Qed.

Lemma snd_imap_pair {A} (g : nat -> nat) (l : list A) :
  map snd (imap (fun i x => (g i, x)) l) = l.
Proof.
  revert g. induction l as [| x l IH]; intros g; cbn; [reflexivity |].
  f_equal. apply (IH (g ∘ S)).
Qed.

Lemma sent_items ks (b : list Draft.t) : map snd (permute ks (imap pair b)) ≡ₚ b.
Proof.
  rewrite (permute_perm ks).
  change (imap pair b) with (imap (fun i (x : Draft.t) => (id i, x)) b).
  by rewrite snd_imap_pair.
Qed.

Lemma runOps_upserts e t ops : steps (upserts_of (map snd ops)) (runOps e t ops).
Proof.
  induction ops as [| [i d] ops IH]; cbn [runOps map snd].
  - apply steps_ret; exact _.
  - steps_split.
    + intros s. split; [repeat split |]. cbn.
      eapply upserted_step; [apply elem_of_cons; by left | constructor].
    + eapply upserts_of_mono; [| exact IH]. intros x Hx. apply elem_of_cons. by right.
Qed.

Lemma runOps_returns e t ops s : exists errs, fst (runOps e t ops s) = Ok errs.
Proof.
  revert s. induction ops as [| [i d] ops IH]; intros s; cbn [runOps]; [by eexists |].
  unfold mbind, M_bind, bind, modify.
  destruct (bulkRejects e t i); cbn.
  - destruct (IH s) as [errs H]. destruct (runOps e t ops s) as [r s2]. cbn in H.
    subst r. cbn. by eexists.
  - match goal with |- context [runOps e t ops ?st] =>
      destruct (IH st) as [errs H]; destruct (runOps e t ops st) as [r s2] end.
    cbn in H. subst r. cbn. by eexists.
Qed.

Lemma sendItems_upserts b : steps (upserts_of b) (dbCall (sendItems b)).
Proof.
  unfold sendItems. steps_split; try (intros s; split; [repeat split | constructor]).
  eapply upserts_of_mono; [| apply runOps_upserts].
  intros x Hx. by rewrite sent_items in Hx.
Qed.

(** [upsertBatch] never raises, records one bulk write, and reaches the
    products collection through upserts of the drafts of the batch. *)
Lemma upsertBatch_spec b s :
  let s' := snd (upsertBatch b s) in
  fst (upsertBatch b s) = Ok tt /\
  upserts_of b (record_bulkWrite b s) s'.
Proof.
  unfold upsertBatch, bulkWrite, try_catch. unfold mbind, M_bind, bind, modify. cbn.
  pose proof (sendItems_upserts b (record_bulkWrite b s)) as U.
  destruct (dbCall (sendItems b) (record_bulkWrite b s)) as [[[] | e] s1]; cbn in *; auto.
Qed.


(** The ['data'] handler never raises; it either skips the row or goes
    on with the draft that [transformRow] returned for it, which has a
    usable name. *)
Lemma onData_cases row s :
  let s' := snd (onData row s) in
  fst (onData row s) = Ok tt /\
  (only_references s s' \/
   exists d s1 n, Js.truthy (ManufacturerName row) = true /\
     transformRow row s = (Ok d, s1) /\ draft_name d = Some n /\ n <> "").
Proof.
  intros s'. subst s'. unfold onData, try_catch.
  destruct (Js.truthy (ManufacturerName row)); cbn [negb];
    [| split; [reflexivity | left; reflexivity]].
  unfold mbind, M_bind, bind, modify, gets.
  pose proof (transformRow_only_references row s) as F.
  destruct (transformRow row s) as [[d | e] s1] eqn:E; cbn [snd] in F;
    [| split; [reflexivity | by left]].
  destruct (ProductData.name (Draft.data d)) as [n |] eqn:En;
    [| split; [reflexivity | by left]].
  destruct (String.eqb_spec n ""); [split; [reflexivity | by left] |].
  cbn [batch push_batch set_importedProductIds].
  destruct (Nat.leb batchSize (length (batch s1 ++ [d]))) eqn:Eb.
  - destruct (upsertBatch_spec (batch s1 ++ [d])
                (set_importedProductIds ({[n]} ∪ importedProductIds s1) (push_batch d s1)))
      as [Hr _].
    destruct (upsertBatch _ _) as [r s2]. cbn [fst snd] in *. subst r.
    split; [reflexivity |]. right. exists d, s1, n. auto.
  - cbn. split; [reflexivity |]. right. exists d, s1, n. auto.
Qed.

Lemma batchSize_pos : (0 < batchSize)%nat.
Proof. unfold batchSize. lia. Qed.

(** ** Properties of the products collection kept by a run *)

#[global] Instance keeps_preorder P : PreOrder (keeps P).
Proof. split; unfold keeps; [intros s; auto | intros s1 s2 s3; auto]. Qed.

Lemma steps_weaken (R R' : State -> State -> Prop) {A} (m : M A) :
  (forall s s', R s s' -> R' s s') -> steps R m -> steps R' m.
Proof. intros H Hm s. apply H, Hm. Qed.

Lemma only_references_keeps P s s' : only_references s s' -> keeps P s s'.
Proof. intros (_ & H & _). unfold keeps. by rewrite H. Qed.

Lemma upserts_of_keeps P ds s s' :
  (forall d l, P l -> P (updateOne d l)) -> upserts_of ds s s' -> keeps P s s'.
Proof.
  intros HP [_ U]. unfold keeps. eapply upserted_preserves; eauto.
Qed.

(** What every step of every handler does, the run does, whatever the
    order in which the handlers go on. *)
Lemma runTasks_steps (R : State -> State -> Prop) `{!PreOrder R} h :
  (forall t, steps R (step h t)) ->
  forall fuel tasks, steps R (runTasks h fuel tasks).
Proof.
  intros Hstep. induction fuel as [| fuel IH]; intros tasks; cbn [runTasks].
  - apply steps_ret; exact _.
  - destruct tasks as [| t0 tasks]; [apply steps_ret; exact _ |].
    apply steps_bind; [exact _ | apply steps_gets; exact _ |]. intros e. cbn zeta.
    destruct (_ !! _) as [t |]; [| apply steps_ret; exact _].
    apply steps_bind; [exact _ | apply Hstep |]. intros next. apply IH.
Qed.

Section Keeps.

Variable P : list Product.t -> Prop.
Hypothesis P_updateOne : forall d l, P l -> P (updateOne d l).
Hypothesis P_write : forall i l, P l -> P (map (write_isDeleted i (Some true)) l).

Lemma upsertBatch_keeps b : steps (keeps P) (upsertBatch b).
Proof.
  intros s. destruct (upsertBatch_spec b s) as [_ H].
  eapply upserts_of_keeps in H; [| exact P_updateOne]. exact H.
Qed.

Lemma onData_keeps row : steps (keeps P) (onData row).
Proof.
  unfold onData. steps_split; try (intro; unfold keeps; auto; fail).
  - eapply steps_weaken; [apply only_references_keeps | apply transformRow_only_references].
  - apply upsertBatch_keeps.
Qed.

Lemma finalFlush_keeps : steps (keeps P) finalFlush.
Proof. unfold finalFlush. steps_split. apply upsertBatch_keeps. Qed.

Lemma save_keeps p : steps (keeps P) (save (flagged p)).
Proof.
  unfold save. steps_split; try (intro; unfold keeps; auto; fail).
  intros s. unfold keeps. cbn. apply P_write.
Qed.

Lemma forEachProduct_keeps h l : steps (keeps P) (forEachProduct h l).
Proof.
  induction l as [| p l IH]; cbn [forEachProduct]; steps_split.
  - apply save_keeps.
  - exact IH.
Qed.

Lemma handleDeletionsWith_keeps h i : steps (keeps P) (handleDeletionsWith h i).
Proof.
  unfold handleDeletionsWith, find. steps_split; try (intro; unfold keeps; auto; fail).
  apply forEachProduct_keeps.
Qed.

Lemma reconcile_keeps h : steps (keeps P) (reconcile h).
Proof. unfold reconcile. steps_split. apply handleDeletionsWith_keeps. Qed.

Lemma step_keeps h t : steps (keeps P) (step h t).
Proof.
  destruct t; cbn [step]; steps_split; try (intro; unfold keeps; auto; fail).
  - eapply steps_weaken; [apply only_references_keeps | apply transformRow_only_references].
  - apply upsertBatch_keeps.
  - apply finalFlush_keeps.
  - apply reconcile_keeps.
Qed.

Lemma importProductsWith_keeps h file : steps (keeps P) (importProductsWith h file).
Proof.
  unfold importProductsWith.
  steps_split; try (intro; unfold keeps; auto; fail).
  apply runTasks_steps; [exact _ | apply step_keeps].
Qed.

End Keeps.

Lemma write_isDeleted_names i b l : names (map (write_isDeleted i b) l) = names l.
Proof.
  unfold names. rewrite map_map. apply map_ext. intros q.
  unfold write_isDeleted. by destruct (Nat.eqb _ _).
Qed.


(** C5: from a store that holds at most one product per name, importing
    a file, and importing the same file again on the store so obtained,
    both leave a store that holds at most one product per name, whatever
    the rows and whatever the outside world does. *)
Theorem reimport_no_duplicates h file s :
  NoDup (names (productModel s)) ->
  let s1 := snd (importProductsWith h file s) in
  let s2 := snd (importProductsWith h file s1) in
  NoDup (names (productModel s1)) /\ NoDup (names (productModel s2)).
Proof.
  intros H s1 s2.
  assert (K : forall st, keeps (fun l => NoDup (names l)) st
                           (snd (importProductsWith h file st))).
  { intros st. apply importProductsWith_keeps.
    - intros d l. apply updateOne_NoDup_names.
    - intros i l. by rewrite write_isDeleted_names. }
  split; [by apply K | by apply K, K].
Qed.

(** ** The reconciliation pass *)

Section ReconciliationFacts.

Variable importedIds : gset string.
Variable hasOrdersOf : string -> bool.

#[global] Instance only_flags_preorder : PreOrder only_flags.
Proof.
  split.
  - intros s. repeat split.
  - intros s1 s2 s3 H1 H2. unfold only_flags in *.
    destruct H1 as (?&?&?&?&?&?&?&?), H2 as (?&?&?&?&?&?&?&?).
    repeat split; congruence.
Qed.

#[global] Instance reconciles_preorder store :
  PreOrder (reconciles importedIds hasOrdersOf store).
Proof.
  split.
  - intros s. split; [reflexivity |]. split; [| auto].
    exists []. by rewrite app_nil_r.
  - intros s1 s2 s3 (F1 & (X1 & E1 & Q1) & R1) (F2 & (X2 & E2 & Q2) & R2).
    split; [by transitivity s2 |]. split; [| auto].
    exists (X1 ++ X2)%list. split; [by rewrite E2, E1, <- app_assoc |].
    by apply Forall_app.
Qed.

Lemma flagged_flagged q : flagged (flagged q) = flagged q.
Proof. reflexivity. Qed.


Lemma write_flag_self q :
  write_isDeleted (Product._id q) (Some true) q = flagged q.
Proof. unfold write_isDeleted. by rewrite Nat.eqb_refl. Qed.

Lemma reconciled_by_id q q' :
  reconciled_by importedIds hasOrdersOf q q' -> Product._id q' = Product._id q.
Proof. intros [-> | (-> & _)]; reflexivity. Qed.

(** One accepted [save] of a selected product without orders keeps the
    relation to the store the pass started from, whose [_id]s are
    distinct. *)
Lemma write_reconciled_by store p docs :
  NoDup (ids store) -> p ∈ store ->
  to_delete importedIds p = true -> hasOrdersOf (Product.id p) = false ->
  Forall2 (reconciled_by importedIds hasOrdersOf) store docs ->
  Forall2 (reconciled_by importedIds hasOrdersOf) store
          (map (write_isDeleted (Product._id p) (Some true)) docs).
Proof.
  intros Hnd Hp Hsel Hno HF.
  assert (Hall : forall q, q ∈ store -> Product._id q = Product._id p -> q = p).
  { intros q Hq Hid.
    apply list_elem_of_lookup in Hq as [i Hi]. apply list_elem_of_lookup in Hp as [j Hj].
    assert (i = j).
    { eapply NoDup_lookup; [exact Hnd | |]; unfold ids; rewrite list_lookup_fmap.
      - rewrite Hi. reflexivity.
      - rewrite Hj. simpl. by rewrite Hid. }
    subst j. congruence. }
  clear Hp Hnd. induction HF as [| q q' store docs Hqq HF IH]; cbn [map]; constructor.
  - unfold write_isDeleted. destruct (Nat.eqb_spec (Product._id q') (Product._id p)) as [E | E].
    + assert (q = p).
      { apply Hall; [apply elem_of_cons; by left |].
        by rewrite <- (reconciled_by_id q q' Hqq). }
      subst q. right. split; [| auto].
      destruct Hqq as [-> | (-> & _)]; reflexivity.
    + exact Hqq.
  - apply IH. intros x Hx. apply Hall. apply elem_of_cons. by right.
Qed.

Lemma save_reconciles store p :
  NoDup (ids store) -> p ∈ store ->
  to_delete importedIds p = true -> hasOrdersOf (Product.id p) = false ->
  steps (reconciles importedIds hasOrdersOf store) (save (flagged p)).
Proof.
  intros Hnd Hp Hsel Hno. unfold save. steps_split.
  - intros s. split; [repeat split |]. split; [| auto].
    exists [Product._id p]. split; [reflexivity |]. constructor; [| constructor].
    exists p. auto.
  - intros s. split; [repeat split |]. split; [| auto].
    exists []. by rewrite app_nil_r.
  - intros s. split; [repeat split |]. split.
    + exists []. by rewrite app_nil_r.
    + cbn. by apply write_reconciled_by.
Qed.

Lemma forEachProduct_reconciles store l :
  NoDup (ids store) ->
  (forall p, p ∈ l -> p ∈ store /\ to_delete importedIds p = true) ->
  steps (reconciles importedIds hasOrdersOf store) (forEachProduct hasOrdersOf l).
Proof.
  intros Hnd. induction l as [| p l IH]; intros Hl; cbn [forEachProduct].
  - apply steps_ret; exact _.
  - destruct (Hl p) as [Hp Hsel]; [apply elem_of_cons; by left |].
    steps_split.
    + apply save_reconciles; auto. by apply negb_true_iff.
    + apply IH. intros x Hx. apply Hl. apply elem_of_cons. by right.
Qed.

(** [handleDeletions] never raises; with distinct [_id]s in the store, it
    saves only selected products without orders and leaves in the place
    of every stored product either the product itself or its flagged
    version. *)
Lemma handleDeletionsWith_spec s :
  NoDup (ids (productModel s)) ->
  let s' := snd (handleDeletionsWith hasOrdersOf importedIds s) in
  fst (handleDeletionsWith hasOrdersOf importedIds s) = Ok tt /\
  only_flags s s' /\
  saves_within importedIds hasOrdersOf (productModel s) s s' /\
  Forall2 (reconciled_by importedIds hasOrdersOf) (productModel s) (productModel s').
Proof.
  intros Hnd s'. subst s'.
  unfold handleDeletionsWith, try_catch, find.
  unfold mbind, M_bind, bind. rewrite !dbCall_run.
  destruct (dbRejects (env s) (tick s)).
  - cbn. split; [reflexivity |]. split; [repeat split |]. split.
    + exists []. by rewrite app_nil_r.
    + apply Forall2_same_length_lookup_2; [reflexivity |].
      intros i x y Hx Hy. left. congruence.
  - unfold gets. cbn [productModel set_tick].
    set (l := filter _ (productModel s)).
    assert (Hl : forall p, p ∈ l -> p ∈ productModel s /\ to_delete importedIds p = true).
    { intros p Hp. apply list_elem_of_filter in Hp as [? ?]. auto. }
    pose proof (forEachProduct_reconciles (productModel s) l Hnd Hl
                  (set_tick (S (tick s)) s)) as (F & S & R).
    assert (H0 : Forall2 (reconciled_by importedIds hasOrdersOf)
                   (productModel s) (productModel s)).
    { apply Forall2_same_length_lookup_2; [reflexivity |].
      intros i x y Hx Hy. left. congruence. }
    destruct (forEachProduct hasOrdersOf l _) as [[[] | e] s1]; cbn in *;
      (split; [reflexivity |]); (split; [exact F |]); (split; [exact S |]); auto.
Qed.

End ReconciliationFacts.

Section ReconciliationAccepted.

Variable importedIds : gset string.
Variable hasOrdersOf : string -> bool.

Lemma save_run p s :
  dbRejects (env s) (tick s) = None ->
  save (flagged p) s =
    (Ok tt,
     set_productModel
       (map (write_isDeleted (Product._id p) (Some true)) (productModel s))
       (set_tick (S (tick s)) (record_save (Product._id p) s))).
Proof.
  intros H. unfold save. unfold mbind, M_bind, bind, modify. rewrite dbCall_run.
  cbn. by rewrite H.
Qed.

Lemma flag_at_write i j docs :
  flag_at i docs -> flag_at i (map (write_isDeleted j (Some true)) docs).
Proof.
  unfold flag_at. rewrite Forall_map. intros H. eapply Forall_impl; [exact H |].
  intros q Hq. cbn beta.
  unfold write_isDeleted. destruct (Nat.eqb _ _); [reflexivity | exact Hq].
Qed.

Lemma flag_at_written i docs : flag_at i (map (write_isDeleted i (Some true)) docs).
Proof.
  unfold flag_at. rewrite Forall_map. apply Forall_forall. intros q _.
  unfold write_isDeleted. destruct (Nat.eqb_spec (Product._id q) i); [reflexivity |].
  intros; contradiction.
Qed.

Lemma forEachProduct_world l : steps world_le (forEachProduct hasOrdersOf l).
Proof.
  induction l as [| p l IH]; cbn [forEachProduct]; [apply steps_ret; exact _ |].
  unfold save. steps_split; try exact IH; intros; split; cbn; auto.
Qed.

(** When the store accepts every call, each product of the list that has
    no orders carries the flag at the end of the loop. *)
Lemma forEachProduct_flags l s p :
  db_accepts s -> p ∈ l -> hasOrdersOf (Product.id p) = false ->
  flag_at (Product._id p) (productModel (snd (forEachProduct hasOrdersOf l s))).
Proof.
  revert s. induction l as [| p0 l IH]; intros s Hdb Hin Hno.
  - by apply elem_of_nil in Hin.
  - cbn [forEachProduct]. unfold mbind, M_bind, bind.
    destruct (hasOrdersOf (Product.id p0)) eqn:E0; cbn [negb].
    + cbn [ret]. apply elem_of_cons in Hin as [-> | Hin]; [congruence |].
      by apply IH.
    + change (Product.set_data _ p0) with (flagged p0).
      rewrite save_run by (apply Hdb; lia).
      set (s1 := set_productModel _ _).
      assert (Hdb1 : db_accepts s1).
      { intros t Ht. cbn in *. apply Hdb. lia. }
      apply elem_of_cons in Hin as [-> | Hin]; [| by apply IH].
      apply (forEachProduct_keeps (flag_at (Product._id p0))).
      * intros i docs. apply flag_at_write.
      * subst s1. cbn. apply flag_at_written.
Qed.

Lemma handleDeletionsWith_run s :
  dbRejects (env s) (tick s) = None ->
  snd (handleDeletionsWith hasOrdersOf importedIds s) =
  snd (forEachProduct hasOrdersOf
         (filter (fun p => to_delete importedIds p = true) (productModel s))
         (set_tick (S (tick s)) s)).
Proof.
  intros H. unfold handleDeletionsWith, try_catch, find.
  unfold mbind, M_bind, bind. rewrite dbCall_run, H. unfold gets. cbn [productModel set_tick].
  by destruct (forEachProduct _ _ _) as [[[] | e] s1].
Qed.

(** When the store accepts every call of the pass, every selected product
    without orders is flagged and every other product is untouched. *)
Lemma handleDeletionsWith_accepted s :
  NoDup (ids (productModel s)) -> db_accepts s ->
  Forall2 (reconciled importedIds hasOrdersOf) (productModel s)
          (productModel (snd (handleDeletionsWith hasOrdersOf importedIds s))).
Proof.
  intros Hnd Hdb.
  destruct (handleDeletionsWith_spec importedIds hasOrdersOf s Hnd) as (_ & _ & _ & HF).
  assert (Hfl : forall q, q ∈ productModel s -> to_delete importedIds q = true ->
                  hasOrdersOf (Product.id q) = false ->
                  flag_at (Product._id q)
                    (productModel (snd (handleDeletionsWith hasOrdersOf importedIds s)))).
  { intros q Hq Hsel Hno. rewrite handleDeletionsWith_run by (apply Hdb; lia).
    apply forEachProduct_flags; auto.
    - intros t Ht. cbn in *. apply Hdb. lia.
    - apply list_elem_of_filter. auto. }
  clear Hnd Hdb. revert HF Hfl.
  generalize (productModel (snd (handleDeletionsWith hasOrdersOf importedIds s))).
  generalize (productModel s). intros store docs' HF.
  induction HF as [| q q' store docs Hqq HF IH]; intros Hfl; constructor.
  - unfold reconciled.
    destruct (to_delete importedIds q) eqn:Esel;
      [destruct (hasOrdersOf (Product.id q)) eqn:Eo |].
    + destruct Hqq as [-> | (_ & _ & C)]; [reflexivity | congruence].
    + destruct Hqq as [-> | (-> & _)]; [| reflexivity]. exfalso.
      specialize (Hfl q (ltac:(apply elem_of_cons; by left)) Esel Eo).
      apply Forall_cons in Hfl as [Hfl _]. specialize (Hfl eq_refl).
      unfold to_delete in Esel. rewrite Hfl in Esel.
      rewrite bool_decide_eq_true_2 in Esel by reflexivity.
      by rewrite andb_false_r in Esel.
    + destruct Hqq as [-> | (_ & C & _)]; [reflexivity | congruence].
  - apply IH. intros x Hx Hsel Hno.
    specialize (Hfl x (ltac:(apply elem_of_cons; by right)) Hsel Hno).
    by apply Forall_cons in Hfl as [_ Hfl].
Qed.

End ReconciliationAccepted.

(** ** The run as a whole *)

Lemma finalFlush_run s :
  finalFlush s =
    if Nat.ltb 0 (length (batch s)) then upsertBatch (batch s) s else (Ok tt, s).
Proof.
  unfold finalFlush, mbind, M_bind, bind, gets.
  by destruct (Nat.ltb 0 (length (batch s))).
Qed.

Lemma reconcile_run h s :
  reconcile h s =
    if DELETE_FLAG (env s) then handleDeletionsWith h (importedProductIds s) s
    else (Ok tt, s).
Proof.
  unfold reconcile, mbind, M_bind, bind, gets. by destruct (DELETE_FLAG (env s)).
Qed.

Lemma handleDeletionsWith_only_flags h i : steps only_flags (handleDeletionsWith h i).
Proof.
  assert (L : forall l, steps only_flags (forEachProduct h l)).
  { induction l as [| p l IH]; cbn [forEachProduct]; [apply steps_ret; exact _ |].
    unfold save. steps_split; try exact IH; intros; repeat split. }
  unfold handleDeletionsWith, find. steps_split; try apply L; intros; repeat split.
Qed.

Lemma handleDeletionsWith_returns h i s : fst (handleDeletionsWith h i s) = Ok tt.
Proof.
  unfold handleDeletionsWith, try_catch.
  match goal with
  | |- fst (let (_, _) := ?m in _) = _ => destruct m as [[[] | e] s1]; reflexivity
  end.
Qed.

Lemma reconcile_only_flags h : steps only_flags (reconcile h).
Proof. unfold reconcile. steps_split. apply handleDeletionsWith_only_flags. Qed.

Lemma upsertBatch_world b : steps world_le (upsertBatch b).
Proof.
  assert (L : forall e t ops, steps world_le (runOps e t ops)).
  { intros e t ops. induction ops as [| [i d] ops IH]; cbn [runOps];
      [apply steps_ret; exact _ |].
    steps_split; try exact IH; intros; split; cbn; auto. }
  unfold upsertBatch, bulkWrite, sendItems.
  steps_split; try apply L; intros; split; cbn; auto.
Qed.


Lemma handleDeletionsWith_world h i : steps world_le (handleDeletionsWith h i).
Proof.
  unfold handleDeletionsWith, find. steps_split.
  - intros s. split; cbn; auto.
  - apply forEachProduct_world.
Qed.


Lemma upsertBatch_eta b s : upsertBatch b s = (Ok tt, snd (upsertBatch b s)).
Proof.
  pose proof (proj1 (upsertBatch_spec b s)) as H. cbn zeta in H.
  destruct (upsertBatch b s) as [r s1]. cbn in *. by subst r.
Qed.

(** *** The steps of the handlers *)

Lemma step_Data h row s :
  step h (Data row) s =
    if Js.truthy (ManufacturerName row)
    then match transformRow row s with
         | (Ok d, s1) => (Ok (Some (Transformed d)), s1)
         | (Throw e, s1) => (Ok None, s1)
         end
    else (Ok None, s).
Proof.
  cbn [step]. unfold try_catch. destruct (Js.truthy (ManufacturerName row)); cbn [negb];
    [| reflexivity].
  unfold mbind, M_bind, bind. by destruct (transformRow row s) as [[d | e] s1].
Qed.

Lemma step_Transformed h d s :
  step h (Transformed d) s =
    match draft_name d with
    | Some n =>
        if String.eqb n "" then (Ok None, s)
        else
          let s2 := set_importedProductIds ({[ n ]} ∪ importedProductIds s)
                      (push_batch d s) in
          if Nat.leb batchSize (length (batch s2))
          then (Ok (Some Flushed), snd (upsertBatch (batch s2) s2))
          else (Ok None, s2)
    | None => (Ok None, s)
    end.
Proof.
  cbn [step]. unfold draft_name. destruct (ProductData.name (Draft.data d)) as [n |];
    [| reflexivity].
  destruct (String.eqb n ""); [reflexivity |].
  cbn zeta. unfold mbind, M_bind, bind, modify, gets.
  cbn [batch push_batch set_importedProductIds].
  destruct (Nat.leb batchSize _); [| reflexivity].
  rewrite upsertBatch_eta. reflexivity.
Qed.

Lemma step_Flushed h s : step h Flushed s = (Ok None, reset_batch s).
Proof. reflexivity. Qed.

Lemma finalFlush_returns s : fst (finalFlush s) = Ok tt.
Proof.
  rewrite finalFlush_run. destruct (Nat.ltb 0 _); [apply upsertBatch_spec | reflexivity].
Qed.

Lemma reconcile_returns h s : fst (reconcile h s) = Ok tt.
Proof.
  rewrite reconcile_run. destruct (DELETE_FLAG _);
    [apply handleDeletionsWith_returns | reflexivity].
Qed.

Lemma step_End h s : step h End s = (Ok (Some EndFlushed), snd (finalFlush s)).
Proof.
  cbn [step]. unfold mbind, M_bind, bind. pose proof (finalFlush_returns s) as H.
  destruct (finalFlush s) as [r s1]. cbn in *. by subst r.
Qed.

Lemma step_EndFlushed h s : step h EndFlushed s = (Ok None, snd (reconcile h s)).
Proof.
  cbn [step]. unfold mbind, M_bind, bind. pose proof (reconcile_returns h s) as H.
  destruct (reconcile h s) as [r s1]. cbn in *. by subst r.
Qed.

(** No step of a handler raises, and each one brings the handler nearer
    to its end. *)
Lemma step_returns h t s :
  exists next, fst (step h t s) = Ok next /\
    forall t', next = Some t' -> (weight t' < weight t)%nat.
Proof.
  destruct t as [row | d | | |].
  - rewrite step_Data. destruct (Js.truthy _); [| exists None; split; [reflexivity | discriminate]].
    destruct (transformRow row s) as [[d | e] s1]; eexists; (split; [reflexivity |]);
      intros t' [= <-] || discriminate; cbn; lia.
  - rewrite step_Transformed. destruct (draft_name d) as [n |];
      [| exists None; split; [reflexivity | discriminate]].
    destruct (String.eqb n ""); [exists None; split; [reflexivity | discriminate] |].
    cbn zeta. destruct (Nat.leb _ _); eexists; (split; [reflexivity |]);
      intros t' [= <-] || discriminate; cbn; lia.
  - rewrite step_Flushed. exists None. split; [reflexivity | discriminate].
  - rewrite step_End. eexists. split; [reflexivity |]. intros t' [= <-]. cbn. lia.
  - rewrite step_EndFlushed. exists None. split; [reflexivity | discriminate].
Qed.

(** *** Invariants of a run *)

Lemma resume_cons i next a tasks :
  resume (S i) next (a :: tasks) = a :: resume i next tasks.
Proof. by destruct next. Qed.

Lemma weight_pos t : (0 < weight t)%nat.
Proof. destruct t; cbn; lia. Qed.

Lemma weights_resume i next tasks t :
  tasks !! i = Some t ->
  (forall t', next = Some t' -> (weight t' < weight t)%nat) ->
  (weights (resume i next tasks) < weights tasks)%nat.
Proof.
  revert i. induction tasks as [| a tasks IH]; intros [| i] Hi Hw; try discriminate.
  - injection Hi as ->. pose proof (weight_pos t).
    destruct next as [t' |]; unfold weights; cbn; [specialize (Hw t' eq_refl) |]; lia.
  - rewrite resume_cons. specialize (IH i Hi Hw). unfold weights in *. cbn. lia.
Qed.

Lemma ends_resume i next tasks t :
  tasks !! i = Some t ->
  (ends (resume i next tasks) + (if is_end t then 1 else 0) =
   ends tasks + match next with Some t' => if is_end t' then 1 else 0 | None => 0 end)%nat.
Proof.
  revert i. induction tasks as [| a tasks IH]; intros [| i] Hi; try discriminate.
  - injection Hi as ->. destruct next as [t' |]; unfold ends; cbn; lia.
  - rewrite resume_cons. specialize (IH i Hi). unfold ends in *. cbn. lia.
Qed.

Lemma resume_Forall (T : Task -> Prop) i next tasks :
  Forall T tasks -> (forall t', next = Some t' -> T t') -> Forall T (resume i next tasks).
Proof.
  intros H Hn. destruct next as [t' |]; cbn.
  - apply Forall_insert; auto.
  - by apply Forall_delete.
Qed.

(** One step of the scheduler. *)
Lemma runTasks_step h fuel t0 tasks s t :
  (t0 :: tasks) !! (schedule (env s) fuel mod length (t0 :: tasks))%nat = Some t ->
  runTasks h (S fuel) (t0 :: tasks) s =
    match step h t s with
    | (Ok next, s1) =>
        runTasks h fuel
          (resume (schedule (env s) fuel mod length (t0 :: tasks))%nat next (t0 :: tasks)) s1
    | (Throw e, s1) => (Throw e, s1)
    end.
Proof.
  intros Ht. cbn [runTasks]. unfold mbind, M_bind, bind, gets. cbn zeta.
  rewrite Ht. by destruct (step h t s) as [[next | e] s1].
Qed.

(** A property of the pending handlers and the state that every step
    keeps holds, with no handler pending, when the run is over; and the
    run never raises. *)
Lemma runTasks_inv h (I : list Task -> State -> Prop) :
  (forall tasks i t s next,
     tasks !! i = Some t -> I tasks s -> fst (step h t s) = Ok next ->
     I (resume i next tasks) (snd (step h t s))) ->
  forall fuel tasks s,
    (weights tasks <= fuel)%nat -> I tasks s ->
    fst (runTasks h fuel tasks s) = Ok tt /\ I [] (snd (runTasks h fuel tasks s)).
Proof.
  intros Hstep. induction fuel as [| fuel IH]; intros tasks s Hw HI.
  - destruct tasks as [| t tasks]; [by split |].
    pose proof (weight_pos t). unfold weights in Hw. cbn in Hw. lia.
  - destruct tasks as [| t0 tasks]; [by split |].
    set (i := (schedule (env s) fuel mod length (t0 :: tasks))%nat).
    assert (Hi : (i < length (t0 :: tasks))%nat).
    { subst i. apply Nat.mod_upper_bound. cbn. lia. }
    destruct (lookup_lt_is_Some_2 _ _ Hi) as [t Ht].
    rewrite (runTasks_step h fuel t0 tasks s t Ht). fold i.
    destruct (step_returns h t s) as (next & Hn & Hlt).
    specialize (Hstep _ _ _ _ next Ht HI Hn).
    pose proof (weights_resume i next _ t Ht Hlt) as Hw'.
    destruct (step h t s) as [r s1]. cbn [fst snd] in *. subst r.
    apply IH; [lia | exact Hstep].
Qed.

Lemma weights_start rows : weights (map Data rows ++ [End])%list = (3 * length rows + 2)%nat.
Proof.
  unfold weights. induction rows as [| row rows IH]; cbn in *; lia.
Qed.

Lemma ends_start rows : ends (map Data rows ++ [End])%list = 1%nat.
Proof. unfold ends. induction rows as [| row rows IH]; cbn in *; lia. Qed.

(** The shape of a run over an existing file. *)
Lemma importProductsWith_run h rows s :
  importProductsWith h (Some rows) s =
    runTasks h (3 * length rows + 2) (map Data rows ++ [End])%list
      (set_importedProductIds ∅ (reset_batch s)).
Proof. reflexivity. Qed.

Lemma importProductsWith_inv h (I : list Task -> State -> Prop) rows s :
  (forall tasks i t s next,
     tasks !! i = Some t -> I tasks s -> fst (step h t s) = Ok next ->
     I (resume i next tasks) (snd (step h t s))) ->
  I (map Data rows ++ [End])%list (set_importedProductIds ∅ (reset_batch s)) ->
  I [] (snd (importProductsWith h (Some rows) s)).
Proof.
  intros Hstep H0. rewrite importProductsWith_run.
  apply (runTasks_inv h I Hstep); [by rewrite weights_start | exact H0].
Qed.

Lemma importProductsWith_returns h file s : fst (importProductsWith h file s) = Ok tt.
Proof.
  destruct file as [rows |]; [| reflexivity]. rewrite importProductsWith_run.
  apply (runTasks_inv h (fun _ _ => True)); [auto | by rewrite weights_start | exact I].
Qed.

(** ** The claims on the orchestrator *)

Lemma onData_skip row s :
  Js.truthy (ManufacturerName row) = false \/
  (exists e s1, transformRow row s = (Throw e, s1)) \/
  (exists d s1, transformRow row s = (Ok d, s1) /\ Js.truthy (draft_name d) = false) ->
  only_references s (snd (onData row s)).
Proof.
  intros Hskip.
  destruct (Js.truthy (ManufacturerName row)) eqn:Em.
  - destruct (onData_cases row s) as [_ [H | (d & s1 & n & _ & Ht & Hn & Hne)]];
      [exact H | exfalso].
    destruct Hskip as [C | [(e & s2 & C) | (d' & s2 & C & Hf)]];
      [discriminate | congruence |].
    rewrite Ht in C. injection C as <- <-. rewrite Hn in Hf. cbn in Hf.
    apply String.eqb_neq in Hne. by rewrite Hne in Hf.
  - unfold onData, try_catch. rewrite Em. cbn. reflexivity.
Qed.

(** C7: the ['data'] handler never raises, and no step of a handler
    does, so the stream goes on with the other rows whatever the row was,
    and neither does [importProducts] as a whole; and a row without
    manufacturer name, a row on which
    [transformRow] raises (a resolver whose store call is rejected, for
    one) and a row whose draft has no usable name are skipped: the batch,
    the set of imported names, the bulk writes issued and the products
    collection are as before the row. *)
Theorem onData_skips row s :
  fst (onData row s) = Ok tt /\
  (forall h t st, exists next, fst (step h t st) = Ok next) /\
  (forall h file st, fst (importProductsWith h file st) = Ok tt) /\
  (Js.truthy (ManufacturerName row) = false \/
   (exists e s1, transformRow row s = (Throw e, s1)) \/
   (exists d s1, transformRow row s = (Ok d, s1) /\ Js.truthy (draft_name d) = false) ->
   only_references s (snd (onData row s))).
Proof.
  split; [apply onData_cases |].
  split; [intros h t st; destruct (step_returns h t st) as (next & H & _); eauto |].
  split; [apply importProductsWith_returns |].
  apply onData_skip.
Qed.






(** *** Facts used along a run *)

Lemma transformRow_draft row s d s' :
  transformRow row s = (Ok d, s') ->
  draft_name d = ProductName row /\
  ProductData.isDeleted (Draft.data d) = None.
Proof.
  unfold transformRow. unfold mbind, M_bind, bind.
  destruct (nanoid s) as [[docId | ?] s1]; [| discriminate].
  destruct (VendorService.getVendorId _ _ s1) as [[vendorId | ?] s2]; [| discriminate].
  destruct (ManufacturerService.getManufacturerId _ _ s2) as [[manufacturerId | ?] s3];
    [| discriminate].
  destruct (DescriptionEnhancerService.enhanceDescription _ _ _ s3) as [[descr | ?] s4];
    [| discriminate].
  destruct (nanoid s4) as [[variantId | ?] s5]; [| discriminate].
  unfold ret. intros [= <- <-]. split; reflexivity.
Qed.

Lemma usable_spec row :
  usable row = true <->
  Js.truthy (ManufacturerName row) = true /\ Js.truthy (ProductName row) = true.
Proof. unfold usable. apply andb_true_iff. Qed.

(** What the first step of a ['data'] handler leaves: the products
    collection and the variables of the run as they were, and a draft
    named as the row when the handler goes on. *)
Lemma step_Data_spec h row s :
  let s' := snd (step h (Data row) s) in
  only_references s s' /\ world_le s s' /\
  ((fst (step h (Data row) s) = Ok None) \/
   exists d, fst (step h (Data row) s) = Ok (Some (Transformed d)) /\
     Js.truthy (ManufacturerName row) = true /\ draft_name d = ProductName row /\
     ProductData.isDeleted (Draft.data d) = None).
Proof.
  rewrite step_Data. destruct (Js.truthy (ManufacturerName row)) eqn:Em; cbn zeta.
  - pose proof (transformRow_only_references row s) as F.
    pose proof (transformRow_world row s) as W.
    destruct (transformRow row s) as [[d | e] s1] eqn:Ht; cbn [fst snd] in *.
    + split; [exact F |]. split; [exact W |]. right. exists d.
      destruct (transformRow_draft row s d s1 Ht). auto.
    + split; [exact F |]. split; [exact W |]. by left.
  - cbn. split; [reflexivity |]. split; [reflexivity |]. by left.
Qed.


Lemma upsertBatch_only_products b s :
  only_products (record_bulkWrite b s) (snd (upsertBatch b s)).
Proof. by destruct (upsertBatch_spec b s) as [_ [F _]]. Qed.



Lemma finalFlush_frame s :
  let s' := snd (finalFlush s) in
  env s' = env s /\ batch s' = batch s /\ importedProductIds s' = importedProductIds s /\
  productSaves s' = productSaves s /\ accepted s' = accepted s /\
  vendorModel s' = vendorModel s /\ manufacturerModel s' = manufacturerModel s.
Proof.
  rewrite finalFlush_run. destruct (Nat.ltb 0 _); [| repeat split].
  destruct (upsertBatch_only_products (batch s) s) as (?&?&?&?&?&?&?&?&?). cbn in *.
  repeat split; auto.
Qed.



(** The handler of a row that no other handler interrupts is the
    ['data'] handler run from its first statement to its last. *)
Lemma runTasks_alone h fuel t s :
  runTasks h (S fuel) [t] s =
    match step h t s with
    | (Ok next, s1) => runTasks h fuel (resume 0 next [t]) s1
    | (Throw e, s1) => (Throw e, s1)
    end.
Proof.
  rewrite (runTasks_step h fuel t [] s t) by (cbn [length]; by rewrite Nat.mod_1_r).
  cbn [length]. by rewrite Nat.mod_1_r.
Qed.

Lemma onData_as_steps h row s : onData row s = runTasks h 3 [Data row] s.
Proof.
  rewrite runTasks_alone, step_Data. unfold onData, try_catch.
  destruct (Js.truthy (ManufacturerName row)); cbn [negb]; [| reflexivity].
  unfold mbind at 1. unfold M_bind, bind.
  destruct (transformRow row s) as [[d | e] s1]; [| reflexivity].
  cbn [resume]. change (<[0%nat:=Transformed d]> [Data row]) with [Transformed d].
  rewrite runTasks_alone, step_Transformed. unfold draft_name.
  destruct (ProductData.name (Draft.data d)) as [n |]; [| reflexivity].
  destruct (String.eqb n ""); [reflexivity |].
  cbn zeta. unfold mbind, M_bind, bind, modify, gets.
  cbn [batch push_batch set_importedProductIds].
  destruct (Nat.leb batchSize _); [| reflexivity].
  rewrite upsertBatch_eta. reflexivity.
Qed.

(** *** A stored product whose name no usable row carries *)

Section Absent.

Variable h : string -> bool.
Variable n : string.
Variable p : Product.t.
Hypothesis p_name : product_name p = Some n.
Hypothesis p_unflagged : ProductData.isDeleted (Product.data p) <> Some true.
Hypothesis p_no_orders : h (Product.id p) = false.




End Absent.


(** *** The ['end'] handler overtaking a row *)




(** ** Overwriting by upsert *)

Section Overwrite.

Lemma runOps_accepted e t ops s :
  (forall i, bulkRejects e t i = None) ->
  productModel (snd (runOps e t ops s)) = applyAll (map snd ops) (productModel s).
Proof.
  intros Hno. revert s. induction ops as [| [i d] ops IH]; intros s; [reflexivity |].
  cbn [runOps applyAll fold_left map snd]. unfold mbind, M_bind, bind, modify.
  rewrite Hno. cbn [ret].
  match goal with |- context [runOps e t ops ?st] =>
    specialize (IH st); destruct (runOps e t ops st) as [[errs | e'] s2] end; exact IH.
Qed.

(** When the store accepts the write, it applies every draft of the
    batch, once, in an order of its own. *)
Lemma upsertBatch_accepted b s :
  db_accepts s ->
  exists b', b' ≡ₚ b /\
    productModel (snd (upsertBatch b s)) = applyAll b' (productModel s).
Proof.
  intros Hdb.
  exists (map snd (permute (bulkOrder (env s) (S (tick s))) (imap pair b))).
  split; [apply sent_items |].
  unfold upsertBatch, bulkWrite, try_catch. unfold mbind at 1. unfold M_bind, bind, modify.
  cbn [fst snd]. rewrite dbCall_run. cbn [env tick record_bulkWrite].
  rewrite (db_accepts_now s Hdb). unfold sendItems, mbind, M_bind, bind, gets.
  cbn [env tick set_tick record_bulkWrite].
  pose proof (runOps_accepted (env s) (S (tick s))
                (permute (bulkOrder (env s) (S (tick s))) (imap pair b))
                (set_tick (S (tick s)) (record_bulkWrite b s))) as H.
  specialize (H (fun i => proj2 (Hdb (S (tick s)) (Nat.le_succ_diag_r _)) i)).
  destruct (runOps _ _ _ _) as [[[| e errs] | e] s1]; exact H.
Qed.

Lemma applyAll_app b1 b2 docs : applyAll (b1 ++ b2) docs = applyAll b2 (applyAll b1 docs).
Proof. apply fold_left_app. Qed.

Lemma applyAll_NoDup_names b docs :
  NoDup (names docs) -> NoDup (names (applyAll b docs)).
Proof.
  revert docs. induction b as [| d b IH]; intros docs H; [exact H |].
  apply IH, updateOne_NoDup_names, H.
Qed.

(** An upsert leaves in the place of a stored document one with the same
    [_id], [fullData] and name. *)
Lemma update_first_survivor n d docs p :
  draft_name d = n -> p ∈ docs ->
  exists p', p' ∈ update_first n d docs /\ Product._id p' = Product._id p /\
             Product.fullData p' = Product.fullData p /\
             product_name p' = product_name p.
Proof.
  intros Hd. induction docs as [| q docs IH]; intros Hin; [by apply elem_of_nil in Hin |].
  cbn [update_first]. destruct (name_matches n q) eqn:E.
  - apply elem_of_cons in Hin as [-> | Hin].
    + exists (apply_set d q). split; [apply elem_of_cons; by left |].
      apply name_matches_spec in E. repeat split. unfold product_name in *. cbn.
      fold (draft_name d). congruence.
    + exists p. split; [apply elem_of_cons; by right | auto].
  - apply elem_of_cons in Hin as [-> | Hin].
    + exists q. split; [apply elem_of_cons; by left | auto].
    + destruct (IH Hin) as (p' & Hp' & H). exists p'.
      split; [apply elem_of_cons; by right | exact H].
Qed.

Lemma updateOne_survivor d docs p :
  p ∈ docs ->
  exists p', p' ∈ updateOne d docs /\ Product._id p' = Product._id p /\
             Product.fullData p' = Product.fullData p /\
             product_name p' = product_name p.
Proof.
  intros Hin. unfold updateOne. fold (draft_name d). destruct (existsb _ docs).
  - by apply update_first_survivor.
  - exists p. split; [apply elem_of_app; by left | auto].
Qed.

Lemma applyAll_survivor b docs p :
  p ∈ docs ->
  exists p', p' ∈ applyAll b docs /\ Product._id p' = Product._id p /\
             Product.fullData p' = Product.fullData p /\
             product_name p' = product_name p.
Proof.
  revert docs p. induction b as [| d b IH]; intros docs p Hin; [by exists p |].
  destruct (updateOne_survivor d docs p Hin) as (p1 & H1 & Hi1 & Hf1 & Hn1).
  destruct (IH _ p1 H1) as (p2 & H2 & Hi2 & Hf2 & Hn2).
  exists p2. split; [exact H2 |]. repeat split; congruence.
Qed.

(** With distinct names in the store, the upsert of [d] reaches the
    stored document of that name. *)
Lemma update_first_hit d docs p :
  NoDup (names docs) -> p ∈ docs -> product_name p = draft_name d ->
  apply_set d p ∈ update_first (draft_name d) d docs.
Proof.
  induction docs as [| q docs IH]; intros Hnd Hin Hn; [by apply elem_of_nil in Hin |].
  cbn [update_first]. cbn [names map] in Hnd. apply NoDup_cons in Hnd as [Hq Hnd].
  destruct (name_matches (draft_name d) q) eqn:E.
  - apply name_matches_spec in E.
    apply elem_of_cons in Hin as [-> | Hin]; [apply elem_of_cons; by left |].
    exfalso. apply Hq. rewrite E, <- Hn. unfold names.
    apply list_elem_of_fmap. eauto.
  - apply elem_of_cons in Hin as [-> | Hin].
    + exfalso. apply name_matches_spec in Hn. congruence.
    + apply elem_of_cons. right. by apply IH.
Qed.

Lemma updateOne_hit d docs p :
  NoDup (names docs) -> p ∈ docs -> product_name p = draft_name d ->
  apply_set d p ∈ updateOne d docs.
Proof.
  intros Hnd Hin Hn. unfold updateOne. fold (draft_name d).
  destruct (existsb _ docs) eqn:E; [by apply update_first_hit |].
  exfalso. assert (existsb (name_matches (draft_name d)) docs = true); [| congruence].
  apply existsb_name_matches. rewrite <- Hn. unfold names.
  apply list_elem_of_fmap. eauto.
Qed.

Lemma applyAll_other b docs p :
  Forall (fun d => draft_name d <> product_name p) b -> p ∈ docs -> p ∈ applyAll b docs.
Proof.
  revert docs. induction b as [| d b IH]; intros docs HF Hin; [exact Hin |].
  apply Forall_cons in HF as [Hd HF]. apply IH; [exact HF |].
  apply updateOne_other; [congruence | exact Hin].
Qed.

Lemma NoDup_names_unique docs p q :
  NoDup (names docs) -> p ∈ docs -> q ∈ docs -> product_name p = product_name q -> p = q.
Proof.
  intros Hnd Hp Hq Hn.
  apply list_elem_of_lookup in Hp as [i Hi]. apply list_elem_of_lookup in Hq as [j Hj].
  assert (i = j).
  { eapply NoDup_lookup; [exact Hnd | |]; unfold names; rewrite list_lookup_fmap.
    - rewrite Hi. reflexivity.
    - rewrite Hj. cbn. by rewrite Hn. }
  subst j. congruence.
Qed.

(** The overwrite by the last draft of a name in a batch. *)
Lemma applyAll_overwrites pre d post docs p :
  NoDup (names docs) -> p ∈ docs -> product_name p = draft_name d ->
  Forall (fun d' => draft_name d' <> draft_name d) post ->
  exists p', p' ∈ applyAll (pre ++ d :: post) docs /\ set_from d p p' /\
    forall q, q ∈ applyAll (pre ++ d :: post) docs ->
              product_name q = draft_name d -> q = p'.
Proof.
  intros Hnd Hin Hn Hpost.
  destruct (applyAll_survivor pre docs p Hin) as (p1 & H1 & Hi1 & Hf1 & Hn1).
  pose proof (applyAll_NoDup_names pre docs Hnd) as Hnd1.
  assert (H2 : apply_set d p1 ∈ updateOne d (applyAll pre docs)).
  { apply updateOne_hit; auto. congruence. }
  rewrite applyAll_app. cbn [applyAll fold_left]. fold (applyAll post).
  exists (apply_set d p1). split; [| split].
  - apply applyAll_other; [| exact H2]. exact Hpost.
  - repeat split; cbn; congruence.
  - intros q Hq Hqn. eapply NoDup_names_unique; [| exact Hq | | ].
    + apply applyAll_NoDup_names, updateOne_NoDup_names, Hnd1.
    + apply applyAll_other; [exact Hpost | exact H2].
    + exact Hqn.
Qed.

End Overwrite.

(** C8, amended: when the store accepts the writes and holds one product
    per name, a bulk upsert that carries exactly one draft [d] for some
    stored name leaves under that name exactly one document, whose [docId]
    and [data] are those of [d] and whose [_id] and [fullData] are those
    of the document stored before: the paths carried by the draft are
    overwritten, the other paths survive; and this in whatever order the
    store takes the items of the write. *)
Theorem upsertBatch_overwrites pre d post s p :
  db_accepts s ->
  NoDup (names (productModel s)) ->
  p ∈ productModel s ->
  product_name p = draft_name d ->
  Forall (fun d' => draft_name d' <> draft_name d) pre ->
  Forall (fun d' => draft_name d' <> draft_name d) post ->
  let s' := snd (upsertBatch (pre ++ d :: post) s) in
  exists p', p' ∈ productModel s' /\ set_from d p p' /\
    forall q, q ∈ productModel s' -> product_name q = draft_name d -> q = p'.
Proof.
  intros Hdb Hnd Hin Hn Hpre Hpost s'. subst s'.
  destruct (upsertBatch_accepted (pre ++ d :: post) s Hdb) as (b' & Hperm & ->).
  assert (Hd : d ∈ b').
  { rewrite Hperm. apply elem_of_app. right. apply elem_of_cons. by left. }
  apply list_elem_of_split in Hd as (pre' & post' & ->).
  assert (Hrest : (pre' ++ post')%list ≡ₚ (pre ++ post)%list).
  { apply (Permutation_cons_inv (a := d)).
    rewrite (Permutation_middle pre' post' d), (Permutation_middle pre post d).
    exact Hperm. }
  assert (Hall : Forall (fun d' => draft_name d' <> draft_name d) (pre' ++ post')).
  { rewrite Hrest. by apply Forall_app. }
  apply Forall_app in Hall as [_ Hpost'].
  by apply applyAll_overwrites.
Qed.

(** * Further properties *)

(** ** The enhancer, continued *)

Section EnhancerMore.

Import DescriptionEnhancerService.

Lemma white_shorter s t : Js.white s = Some t -> (String.length t < String.length s)%nat.
Proof.
  destruct s as [| c t0]; [discriminate |]. cbn [Js.white].
  destruct (Js.white1 c); [intros [= <-]; cbn; lia |].
  destruct t0 as [| d t1]; [discriminate |].
  destruct (Js.white2 c d); [intros [= <-]; cbn; lia |].
  destruct t1 as [| e t2]; [discriminate |].
  destruct (Js.white3 c d e); [intros [= <-]; cbn; lia | discriminate].
Qed.

Lemma trimStart_white s :
  Js.trimStart s = match Js.white s with Some t => Js.trimStart t | None => s end.
Proof.
  destruct s as [| c t]; [reflexivity |]. cbn [Js.trimStart Js.blank Js.white].
  destruct (Js.white1 c); [reflexivity |].
  destruct t as [| d t1]; [reflexivity |].
  destruct (Js.white2 c d); [reflexivity |].
  destruct t1 as [| e t2]; [reflexivity |].
  by destruct (Js.white3 c d e).
Qed.

Lemma blank_white s :
  Js.blank s = match s with
               | EmptyString => true
               | _ => match Js.white s with Some t => Js.blank t | None => false end
               end.
Proof.
  destruct s as [| c t]; [reflexivity |]. cbn [Js.trimStart Js.blank Js.white].
  destruct (Js.white1 c); [reflexivity |].
  destruct t as [| d t1]; [reflexivity |].
  destruct (Js.white2 c d); [reflexivity |].
  destruct t1 as [| e t2]; [reflexivity |].
  by destruct (Js.white3 c d e).
Qed.

Lemma white_empty : Js.white "" = None.
Proof. reflexivity. Qed.

(** What [trimStart] leaves is blank exactly when the string is. *)
Lemma blank_trimStart s : Js.blank (Js.trimStart s) = Js.blank s.
Proof.
  remember (String.length s) as n eqn:Hn. revert s Hn.
  induction n as [n IH] using lt_wf_ind. intros s Hn.
  rewrite trimStart_white, (blank_white s).
  destruct (Js.white s) as [t |] eqn:E.
  - pose proof (white_shorter s t E) as Hl.
    rewrite (IH (String.length t)) by (subst n; auto).
    destruct s; [discriminate E | reflexivity].
  - rewrite (blank_white s), E. reflexivity.
Qed.

Lemma trimStart_blank s : Js.blank s = true -> Js.trimStart s = "".
Proof.
  remember (String.length s) as n eqn:Hn. revert s Hn.
  induction n as [n IH] using lt_wf_ind. intros s Hn Hb.
  rewrite trimStart_white. rewrite blank_white in Hb.
  destruct s as [| c t]; [reflexivity |].
  destruct (Js.white (String c t)) as [t' |] eqn:E; [| discriminate Hb].
  apply (IH (String.length t')); auto. subst n. by apply white_shorter.
Qed.

Lemma trimEnd_empty s : Js.trimEnd s = "" <-> Js.blank s = true.
Proof.
  destruct s as [| c t]; [by split |]. cbn [Js.trimEnd].
  destruct (Js.blank (String c t)); split; auto; discriminate.
Qed.

(** [trim] gives the empty string exactly on blank strings. *)
Lemma trim_empty s : Js.trim s = "" <-> Js.blank s = true.
Proof. unfold Js.trim. by rewrite trimEnd_empty, blank_trimStart. Qed.

(** One call of the enhancer, unfolded: the outcome is read off the
    answer of the completion service alone, and the state is the one
    before with the clock two instants later. *)
Lemma enhanceDescription_run name category description s :
  enhanceDescription name category description s =
    (Ok (match first_text
                 (completionAt (env s) (S (tick s))
                    (constructPrompt name category description)) with
         | Some t => Js.trim t
         | None => original description
         end),
     set_tick (2 + tick s) s).
Proof.
  rewrite <- or_str_original.
  unfold enhanceDescription, removeTokens, createCompletion, first_text.
  unfold mbind, M_bind, bind, try_catch, next_tick, gets, ret, throw. cbn.
  destruct (limiterRejects (env s) (tick s)); cbn;
    (destruct (completionAt (env s) (S (tick s)) _)
       as [[[[[[| [[t |]] cs] |]] |]] | err]; reflexivity).
Qed.

(** X1: the enhancer fails open and writes nothing. Whatever the world,
    a call leaves the stores and the variables of the run as they were
    and moves the clock by two instants (the limiter and the completion
    call). When the completion service raises, answers without data or
    without choices, or answers with a first choice that carries no text
    (the read of [text.trim] then raises inside the [try]), the
    description passed in comes back, the empty string when none was
    passed. And the result is the same in every state in which the
    completion call gets the same answer: the rate limiter raising or
    not, and the contents of the stores, do not count. *)
Theorem enhanceDescription_fail_open name category description s :
  let reply st := completionAt (env st) (S (tick st))
                    (constructPrompt name category description) in
  snd (enhanceDescription name category description s) = set_tick (2 + tick s) s /\
  (first_text (reply s) = None ->
   fst (enhanceDescription name category description s) = Ok (original description)) /\
  (forall s', reply s' = reply s ->
     fst (enhanceDescription name category description s') =
     fst (enhanceDescription name category description s)).
Proof.
  intros reply. subst reply. cbn beta. split; [| split].
  - by rewrite enhanceDescription_run.
  - intros H. by rewrite enhanceDescription_run, H.
  - intros s' H. rewrite !enhanceDescription_run. cbn [fst]. by rewrite H.
Qed.

(** X2: when the completion service answers with choices and the first
    one carries the text [t], the enhancer returns [t] trimmed, whatever
    description was passed in: so the empty string when [t] is blank (the
    feed's own description is then lost), and a non-empty string
    otherwise. *)
Theorem enhanceDescription_first_choice name category description s t :
  first_text (completionAt (env s) (S (tick s))
                (constructPrompt name category description)) = Some t ->
  fst (enhanceDescription name category description s) = Ok (Js.trim t) /\
  (Js.blank t = true -> fst (enhanceDescription name category description s) = Ok "") /\
  (Js.blank t = false -> Js.trim t <> "").
Proof.
  intros H. rewrite enhanceDescription_run, H. cbn [fst].
  split; [reflexivity |]. split.
  - intros Hb. apply trim_empty in Hb. by rewrite Hb.
  - intros Hb C. apply trim_empty in C. congruence.
Qed.

End EnhancerMore.
Section Prompt.

Import DescriptionEnhancerService.

Lemma append_length (s t : string) :
  String.length (s ++ t) = (String.length s + String.length t)%nat.
Proof.
  induction s as [| c s IH]; [reflexivity |].
  change (S (String.length (s ++ t)) = S (String.length s + String.length t)).
  by rewrite IH.
Qed.

Lemma append_inv_head (s t1 t2 : string) : s ++ t1 = s ++ t2 -> t1 = t2.
Proof. induction s as [| c s IH]; cbn; [auto |]. intros [= H]. auto. Qed.

Lemma append_inv_tail (s1 s2 t : string) : s1 ++ t = s2 ++ t -> s1 = s2.
Proof.
  revert s2. induction s1 as [| c s1 IH]; intros [| c2 s2] H.
  - reflexivity.
  - apply (f_equal String.length) in H. rewrite !append_length in H. cbn in H. lia.
  - apply (f_equal String.length) in H. rewrite !append_length in H. cbn in H. lia.
  - cbn in H. injection H as -> H. f_equal. by apply IH.
Qed.

(** The two shapes of the prompt. *)
Lemma constructPrompt_cases name category description :
  constructPrompt name category description =
    if no_description description
    then promptHead name category ++ lf ++ "New Description:"
    else promptHead name category ++ "Product description: "
           ++ original description ++ lf ++ lf ++ "New Description:".
Proof.
  destruct description as [d |]; cbn [no_description original]; [| reflexivity].
  unfold constructPrompt. fold (promptHead name category).
  destruct (Js.blank d) eqn:Eb.
  - assert (Ht : Js.trim d = "") by (by apply trim_empty).
    rewrite Ht. cbn. by rewrite andb_false_r.
  - assert (Ht : Js.trim d <> "").
    { intros C. apply trim_empty in C. congruence. }
    assert (Hd : d <> "") by (intros ->; discriminate Eb).
    apply String.eqb_neq in Ht, Hd. rewrite Ht, Hd. reflexivity.
Qed.

(** X3: the prompt depends on the description only through what
    [constructPrompt] keeps of it. Two descriptions that are missing,
    empty or blank give the same prompt, the one without a description
    line; any other description is written to the prompt as it is (not
    trimmed), so two of them give the same prompt only when they are
    equal, and never the prompt of a missing description. *)
Theorem constructPrompt_description name category d1 d2 :
  constructPrompt name category d1 = constructPrompt name category d2 <->
  (no_description d1 = true /\ no_description d2 = true) \/
  (no_description d1 = false /\ no_description d2 = false /\
   original d1 = original d2).
Proof.
  rewrite !constructPrompt_cases.
  destruct (no_description d1), (no_description d2); split.
  - auto.
  - reflexivity.
  - intros H. apply append_inv_head in H. discriminate H.
  - intros [[_ C] | (C & _)]; discriminate C.
  - intros H. apply append_inv_head in H. discriminate H.
  - intros [[C _] | (_ & C & _)]; discriminate C.
  - intros H. right. split; [reflexivity |]. split; [reflexivity |].
    apply append_inv_head, append_inv_head in H.
    by apply append_inv_tail in H.
  - intros [[C _] | (_ & _ & ->)]; [discriminate C | reflexivity].
Qed.

End Prompt.
(** ** The resolvers, continued *)

Lemma find_existsb {A} (f : A -> bool) l x :
  List.find f l = Some x -> existsb f l = true /\ f x = true /\ In x l.
Proof.
  intros H. apply find_some in H as [Hin Hf]. split; [| auto].
  apply existsb_exists. eauto.
Qed.

Lemma getManufacturerId_resolved key name s :
  manufacturer_resolved key name s (ManufacturerService.getManufacturerId key name s).
Proof.
  unfold manufacturer_resolved, ManufacturerService.getManufacturerId,
    ManufacturerService.findOne, ManufacturerService.save.
  unfold mbind, M_bind, bind, try_catch. rewrite dbCall_run.
  destruct (dbRejects (env s) (tick s)) as [e |] eqn:E0.
  { cbn. repeat split. exists (tick s). auto. }
  unfold gets. cbn [manufacturerModel set_tick].
  destruct (List.find _ (manufacturerModel s)) as [m |] eqn:Ef.
  - apply find_existsb in Ef as (Hex & Hm & _). apply String.eqb_eq in Hm.
    cbn. repeat split. left. auto.
  - assert (Hs : seen_by_manufacturer key s = false).
    { unfold seen_by_manufacturer. destruct (existsb _ _) eqn:Ex; [| reflexivity].
      apply existsb_exists in Ex as (x & Hin & Hx).
      by pose proof (find_none _ _ Ef x Hin) as C; rewrite C in Hx. }
    unfold nanoid, mbind, M_bind, bind, next_tick, gets, modify. cbn.
    rewrite dbCall_run. cbn.
    destruct (dbRejects (env s) (S (S (tick s)))) as [e |] eqn:E2; cbn.
    + repeat split. exists (S (S (tick s))). split; [lia | exact E2].
    + repeat split. right. auto.
Qed.

Lemma getVendorId_resolved key name s :
  vendor_resolved key name s (VendorService.getVendorId key name s).
Proof.
  unfold vendor_resolved, VendorService.getVendorId,
    VendorService.findOne, VendorService.save.
  unfold mbind, M_bind, bind, try_catch. rewrite dbCall_run.
  destruct (dbRejects (env s) (tick s)) as [e |] eqn:E0.
  { cbn. repeat split. exists (tick s). auto. }
  unfold gets. cbn [vendorModel set_tick].
  destruct (List.find _ (vendorModel s)) as [m |] eqn:Ef.
  - apply find_existsb in Ef as (Hex & Hm & _). apply String.eqb_eq in Hm.
    cbn. repeat split. left. auto.
  - assert (Hs : seen_by_vendor key s = false).
    { unfold seen_by_vendor. destruct (existsb _ _) eqn:Ex; [| reflexivity].
      apply existsb_exists in Ex as (x & Hin & Hx).
      by pose proof (find_none _ _ Ef x Hin) as C; rewrite C in Hx. }
    unfold nanoid, mbind, M_bind, bind, next_tick, gets, modify. cbn.
    rewrite dbCall_run. cbn.
    destruct (dbRejects (env s) (S (S (tick s)))) as [e |] eqn:E2; cbn.
    + repeat split. exists (S (S (tick s))). split; [lia | exact E2].
    + repeat split. right. auto.
Qed.

(** X4: each resolver, by outcome, in every world. When it returns an
    id, either a record of its collection already carried the string of
    the key as id, and then that string comes back and nothing is written;
    or no record did, and then exactly one record is appended to the
    collection, whose id is the id returned and whose name is the name
    passed in. When it raises, the error is one that the store raised at
    that call or later, and nothing is written. The other two collections
    are never touched. *)
Theorem resolvers_by_outcome key name s :
  manufacturer_resolved key name s (ManufacturerService.getManufacturerId key name s) /\
  vendor_resolved key name s (VendorService.getVendorId key name s).
Proof. split; [apply getManufacturerId_resolved | apply getVendorId_resolved]. Qed.

#[global] Instance no_write_preorder : PreOrder no_write.
Proof.
  split.
  - intros s. repeat split.
  - intros s1 s2 s3 (?&?&?) (?&?&?). repeat split; congruence.
Qed.

Lemma enhanceDescription_no_write n c d :
  steps no_write (DescriptionEnhancerService.enhanceDescription n c d).
Proof. intros s. rewrite enhanceDescription_run. repeat split. Qed.

Lemma nanoid_no_write : steps no_write nanoid.
Proof. steps_split. intros s. repeat split. Qed.

Section TransformerMore.

(** The id a resolver returns is the id of a record of its collection. *)
Lemma manufacturer_resolved_stored key name s r id :
  manufacturer_resolved key name s r -> fst r = Ok id ->
  id ∈ map Manufacturer.manufacturerId (manufacturerModel (snd r)).
Proof.
  intros (_ & _ & H) Hr. rewrite Hr in H.
  destruct H as [(Hs & -> & ->) | (_ & ->)].
  - unfold seen_by_manufacturer in Hs. apply existsb_exists in Hs as (m & Hin & Hm).
    apply String.eqb_eq in Hm. rewrite <- Hm.
    apply list_elem_of_In, in_map. exact Hin.
  - rewrite map_app. apply elem_of_app. right. cbn. apply list_elem_of_here.
Qed.

Lemma vendor_resolved_stored key name s r id :
  vendor_resolved key name s r -> fst r = Ok id ->
  id ∈ map Vendor.vendorId (vendorModel (snd r)).
Proof.
  intros (_ & _ & H) Hr. rewrite Hr in H.
  destruct H as [(Hs & -> & ->) | (_ & ->)].
  - unfold seen_by_vendor in Hs. apply existsb_exists in Hs as (m & Hin & Hm).
    apply String.eqb_eq in Hm. rewrite <- Hm.
    apply list_elem_of_In, in_map. exact Hin.
  - rewrite map_app. apply elem_of_app. right. cbn. apply list_elem_of_here.
Qed.

(** X5: referential integrity of a draft. When [transformRow] returns a
    draft, the vendor id and the manufacturer id it carries are ids of
    records that stand in the vendors and the manufacturers collection at
    that moment. *)
Theorem transformRow_references row s d s' :
  transformRow row s = (Ok d, s') ->
  ProductData.vendorId (Draft.data d) ∈ map Vendor.vendorId (vendorModel s') /\
  ProductData.manufacturerId (Draft.data d)
    ∈ map Manufacturer.manufacturerId (manufacturerModel s').
Proof.
  unfold transformRow. unfold mbind, M_bind, bind.
  pose proof (nanoid_no_write s) as N1.
  destruct (nanoid s) as [[docId | ?] s1]; [| discriminate].
  pose proof (getVendorId_resolved (Js.parseInt (ManufacturerID row))
                (ManufacturerName row) s1) as V.
  destruct (VendorService.getVendorId _ _ s1) as [[vendorId | ?] s2] eqn:Ev;
    [| discriminate].
  pose proof (getManufacturerId_resolved (Js.parseInt (ManufacturerID row))
                (ManufacturerName row) s2) as Mf.
  destruct (ManufacturerService.getManufacturerId _ _ s2)
    as [[manufacturerId | ?] s3] eqn:Em; [| discriminate].
  pose proof (enhanceDescription_no_write (ProductName row) (PrimaryCategoryName row)
                (ProductDescription row) s3) as E.
  destruct (DescriptionEnhancerService.enhanceDescription _ _ _ s3)
    as [[descr | ?] s4]; [| discriminate].
  pose proof (nanoid_no_write s4) as N2.
  destruct (nanoid s4) as [[variantId | ?] s5]; [| discriminate].
  unfold ret. intros [= <- <-]. cbn [Draft.data ProductData.vendorId ProductData.manufacturerId].
  pose proof (vendor_resolved_stored _ _ _ _ vendorId V eq_refl) as HV.
  pose proof (manufacturer_resolved_stored _ _ _ _ manufacturerId Mf eq_refl) as HM.
  destruct Mf as (Mv & _). cbn [fst snd] in *.
  destruct E as (Ev4 & Em4 & _), N2 as (Ev5 & Em5 & _).
  rewrite Ev5, Ev4, Mv, Em5, Em4. auto.
Qed.

End TransformerMore.

(** ** Bulk upserts, continued *)

Lemma updateOne_absent d docs :
  draft_name d ∉ names docs -> updateOne d docs = (docs ++ [inserted d docs])%list.
Proof.
  intros H. unfold updateOne. fold (draft_name d).
  destruct (existsb _ docs) eqn:E; [| reflexivity].
  apply existsb_name_matches in E. contradiction.
Qed.

(** X7: the insert path of the upsert. When the store accepts the write
    and holds no product of the draft's name, the upsert appends one
    document and leaves every stored document as it was; the new document
    carries the [docId] and the [data] of the draft, no [fullData], and an
    [_id] that no stored document has. *)
Theorem upsertBatch_inserts d s :
  db_accepts s ->
  draft_name d ∉ names (productModel s) ->
  exists p,
    productModel (snd (upsertBatch [d] s)) = (productModel s ++ [p])%list /\
    Product.docId p = Draft.docId d /\ Product.data p = Draft.data d /\
    Product.fullData p = None /\ Product._id p ∉ ids (productModel s).
Proof.
  intros Hdb Hn. exists (inserted d (productModel s)).
  destruct (upsertBatch_accepted [d] s Hdb) as (b' & Hperm & ->).
  apply Permutation_singleton_r in Hperm. subst b'. cbn [applyAll fold_left].
  split; [by apply updateOne_absent |]. repeat split.
  intros C. apply fresh_id_gt in C. cbn in C. lia.
Qed.
Section UpsertIdempotent.

Lemma find_app_list {A} (f : A -> bool) l1 l2 :
  List.find f (l1 ++ l2)%list =
  match List.find f l1 with Some x => Some x | None => List.find f l2 end.
Proof.
  induction l1 as [| a l1 IH]; [reflexivity |]. cbn. by destruct (f a).
Qed.

Lemma name_matches_apply_set d p :
  name_matches (draft_name d) (apply_set d p) = true.
Proof. by apply name_matches_spec. Qed.

Lemma updateOne_holds d docs : holds d (updateOne d docs).
Proof.
  unfold holds, updateOne. fold (draft_name d).
  destruct (existsb _ docs) eqn:E.
  - induction docs as [| q docs IH]; [discriminate |]. cbn [update_first List.find].
    destruct (name_matches (draft_name d) q) eqn:Eq.
    + cbn [List.find]. rewrite name_matches_apply_set. eauto.
    + cbn [List.find]. rewrite Eq. apply IH. cbn in E. by rewrite Eq in E.
  - exists (inserted d docs). split; [| auto].
    rewrite find_app_list. rewrite (find_none_existsb _ _ E). cbn.
    fold (draft_name d). unfold name_matches. cbn.
    by rewrite bool_decide_eq_true_2.
Qed.

Lemma update_first_find_other n d docs :
  draft_name d <> n ->
  List.find (name_matches n) (update_first (draft_name d) d docs) =
  List.find (name_matches n) docs.
Proof.
  intros Hne. induction docs as [| q docs IH]; [reflexivity |]. cbn [update_first].
  destruct (name_matches (draft_name d) q) eqn:Eq; cbn [List.find].
  - apply name_matches_spec in Eq.
    assert (H1 : name_matches n (apply_set d q) = false).
    { apply not_true_is_false. intros C. apply name_matches_spec in C.
      apply Hne. exact C. }
    assert (H2 : name_matches n q = false).
    { apply not_true_is_false. intros C. apply name_matches_spec in C. congruence. }
    by rewrite H1, H2.
  - by rewrite IH.
Qed.

Lemma updateOne_find_other n d docs :
  draft_name d <> n ->
  List.find (name_matches n) (updateOne d docs) = List.find (name_matches n) docs.
Proof.
  intros Hne. unfold updateOne. fold (draft_name d). destruct (existsb _ docs).
  - by apply update_first_find_other.
  - rewrite find_app_list. destruct (List.find (name_matches n) docs); [reflexivity |].
    cbn. fold (draft_name d).
    assert (H : name_matches n (Product.mk (fresh_id docs) (Draft.docId d) None
                                   (Draft.data d)) = false).
    { apply not_true_is_false. intros C. apply name_matches_spec in C.
      apply Hne. exact C. }
    by rewrite H.
Qed.

Lemma applyAll_holds_other d b docs :
  Forall (fun d' => draft_name d' <> draft_name d) b ->
  holds d docs -> holds d (applyAll b docs).
Proof.
  revert docs. induction b as [| d0 b IH]; intros docs HF H; [exact H |].
  apply Forall_cons in HF as [H0 HF]. cbn [applyAll fold_left]. apply IH; [exact HF |].
  destruct H as (p & Hp & H). exists p. split; [| exact H].
  by rewrite updateOne_find_other.
Qed.

Lemma applyAll_holds b docs :
  NoDup (map draft_name b) -> Forall (fun d => holds d (applyAll b docs)) b.
Proof.
  revert docs. induction b as [| d0 b IH]; intros docs Hnd; [constructor |].
  cbn [map] in Hnd. apply NoDup_cons in Hnd as [H0 Hnd].
  cbn [applyAll fold_left]. constructor; [| by apply IH].
  apply applyAll_holds_other; [| apply updateOne_holds].
  apply Forall_forall. intros d' Hd' C. apply H0. rewrite <- C.
  apply list_elem_of_fmap. eauto.
Qed.

Lemma update_first_same d docs p :
  List.find (name_matches (draft_name d)) docs = Some p ->
  Product.docId p = Draft.docId d -> Product.data p = Draft.data d ->
  update_first (draft_name d) d docs = docs.
Proof.
  intros Hf H1 H2. induction docs as [| q docs IH]; [reflexivity |].
  cbn [update_first List.find] in *.
  destruct (name_matches (draft_name d) q).
  - injection Hf as ->. f_equal. destruct p as [i di fd dt]. cbn in *.
    unfold apply_set. cbn. by rewrite H1, H2.
  - f_equal. by apply IH.
Qed.

Lemma updateOne_same d docs : holds d docs -> updateOne d docs = docs.
Proof.
  intros (p & Hf & H1 & H2). unfold updateOne. fold (draft_name d).
  destruct (existsb _ docs) eqn:E; [by eapply update_first_same |].
  by rewrite (find_none_existsb _ _ E) in Hf.
Qed.

Lemma applyAll_same b docs : Forall (fun d => holds d docs) b -> applyAll b docs = docs.
Proof.
  induction b as [| d b IH]; intros HF; [reflexivity |].
  apply Forall_cons in HF as [H0 HF]. cbn [applyAll fold_left].
  rewrite (updateOne_same d docs H0). by apply IH.
Qed.

(** Upserting once more the drafts just upserted changes nothing, when no
    two of them share a name. *)
Lemma applyAll_idempotent b docs :
  NoDup (map draft_name b) -> applyAll b (applyAll b docs) = applyAll b docs.
Proof. intros H. by apply applyAll_same, applyAll_holds. Qed.

End UpsertIdempotent.

(** X8: a bulk upsert is idempotent on the store. When the store accepts
    the writes and no two drafts of the batch share a name, sending the
    same batch a second time leaves the products collection as the first
    write left it. *)
Theorem upsertBatch_idempotent b s :
  db_accepts s ->
  NoDup (map draft_name b) ->
  productModel (snd (upsertBatch b (snd (upsertBatch b s)))) =
  productModel (snd (upsertBatch b s)).
Proof.
  intros Hdb Hnd.
  assert (Hdb1 : db_accepts (snd (upsertBatch b s))).
  { eapply db_accepts_le; [apply upsertBatch_world | exact Hdb]. }
  destruct (upsertBatch_accepted b _ Hdb1) as (b2 & H2 & ->).
  destruct (upsertBatch_accepted b s Hdb) as (b1 & H1 & ->).
  apply applyAll_same. rewrite H2, <- H1. apply applyAll_holds.
  by rewrite H1.
Qed.

(** ** The reconciliation pass, call by call *)

Section ReconciliationRun.

Variable importedIds : gset string.
Variable hasOrdersOf : string -> bool.

Lemma save_rejected p s e :
  dbRejects (env s) (tick s) = Some e ->
  save p s = (Throw e, set_tick (S (tick s)) (record_save (Product._id p) s)).
Proof.
  intros H. unfold save. unfold mbind, M_bind, bind, modify. rewrite dbCall_run.
  cbn. by rewrite H.
Qed.

Lemma flag_those_nil docs : map (flag_those []) docs = docs.
Proof.
  rewrite <- (map_id docs) at 2. apply map_ext. intros q. unfold flag_those.
  rewrite bool_decide_eq_false_2; [reflexivity | apply not_elem_of_nil].
Qed.

Lemma flag_those_write p l q :
  flag_those l (write_isDeleted (Product._id p) (Some true) q) = flag_those (p :: l) q.
Proof.
  unfold flag_those, write_isDeleted. cbn [ids map].
  destruct (Nat.eqb_spec (Product._id q) (Product._id p)) as [E | E].
  - rewrite (bool_decide_eq_true_2 (_ ∈ _ :: _)) by (rewrite E; apply elem_of_cons; by left).
    change (Product.set_data _ q) with (flagged q).
    by destruct (bool_decide _).
  - destruct (bool_decide (Product._id q ∈ ids l)) eqn:B.
    + apply bool_decide_eq_true in B.
      rewrite bool_decide_eq_true_2; [reflexivity | apply elem_of_cons; by right].
    + apply bool_decide_eq_false in B.
      rewrite bool_decide_eq_false_2; [reflexivity |].
      intros C. apply elem_of_cons in C as [C | C]; contradiction.
Qed.

(** The loop of the pass on the products [l]. *)
Lemma forEachProduct_run l s :
  productModel (snd (forEachProduct hasOrdersOf l s)) =
  map (flag_those (saved hasOrdersOf (env s) (tick s) l)) (productModel s).
Proof.
  revert s. induction l as [| p l IH]; intros s.
  - cbn. by rewrite flag_those_nil.
  - cbn [forEachProduct saved]. unfold mbind, M_bind, bind.
    destruct (hasOrdersOf (Product.id p)); cbn [negb].
    + cbn [ret]. apply IH.
    + change (Product.set_data _ p) with (flagged p).
      destruct (dbRejects (env s) (tick s)) as [e |] eqn:E.
      * rewrite (save_rejected _ _ e E). cbn. by rewrite flag_those_nil.
      * rewrite save_run by exact E. rewrite IH. cbn.
        rewrite map_map. apply map_ext. intros q. apply flag_those_write.
Qed.

(** A loop over products that all have orders does nothing. *)
Lemma forEachProduct_orders l s :
  Forall (fun p => hasOrdersOf (Product.id p) = true) l ->
  forEachProduct hasOrdersOf l s = (Ok tt, s).
Proof.
  induction 1 as [| p l Hp _ IH]; [reflexivity |].
  cbn [forEachProduct]. unfold mbind, M_bind, bind. rewrite Hp. cbn. exact IH.
Qed.

Lemma handleDeletionsWith_rejected s e :
  dbRejects (env s) (tick s) = Some e ->
  handleDeletionsWith hasOrdersOf importedIds s = (Ok tt, set_tick (S (tick s)) s).
Proof.
  intros H. unfold handleDeletionsWith, try_catch, find.
  unfold mbind, M_bind, bind. rewrite dbCall_run, H. reflexivity.
Qed.

Lemma saved_accepted l e t :
  (forall t', (t <= t')%nat -> dbRejects e t' = None) ->
  saved hasOrdersOf e t l = filter (fun p => hasOrdersOf (Product.id p) = false) l.
Proof.
  revert t. induction l as [| p l IH]; intros t H; [reflexivity |].
  cbn [saved]. rewrite filter_cons.
  destruct (hasOrdersOf (Product.id p)) eqn:E.
  - rewrite decide_False by discriminate. by apply IH.
  - rewrite decide_True by reflexivity. rewrite H by lia. f_equal.
    apply IH. intros t' Ht. apply H. lia.
Qed.

Lemma to_delete_flagged q : to_delete importedIds (flagged q) = false.
Proof.
  unfold to_delete, flagged. cbn.
  rewrite (bool_decide_eq_true_2 (Some true = Some true)) by reflexivity.
  apply andb_false_r.
Qed.

End ReconciliationRun.

(** X9: the reconciliation pass, in every world. It never raises. When
    the store rejects the query, the products collection stays as it was.
    Otherwise the loop goes through the selected products in order,
    passes over those with orders, saves the others one by one, and stops
    at the first [save] that the store rejects: the products saved before
    that one are flagged, the rejected one and all the selected products
    after it are left unflagged. *)
Theorem handleDeletions_stops_at_first_failure h importedIds s :
  let s' := snd (handleDeletionsWith h importedIds s) in
  fst (handleDeletionsWith h importedIds s) = Ok tt /\
  productModel s' =
    match dbRejects (env s) (tick s) with
    | Some _ => productModel s
    | None =>
        map (flag_those (saved h (env s) (S (tick s)) (selected importedIds s)))
            (productModel s)
    end.
Proof.
  intros s'. subst s'. split; [apply handleDeletionsWith_returns |].
  destruct (dbRejects (env s) (tick s)) as [e |] eqn:E.
  - by rewrite (handleDeletionsWith_rejected _ _ _ e E).
  - rewrite handleDeletionsWith_run by exact E. by rewrite forEachProduct_run.
Qed.

(** X10: the reconciliation pass is idempotent. When the store accepts
    every call, a second pass with the same imported names and the same
    order check, run right after the first, only queries the store: it
    returns without a [save] and leaves the state as the first pass left
    it, the clock one instant later. *)
Theorem handleDeletions_idempotent h importedIds s :
  db_accepts s ->
  let s1 := snd (handleDeletionsWith h importedIds s) in
  handleDeletionsWith h importedIds s1 = (Ok tt, set_tick (S (tick s1)) s1).
Proof.
  intros Hdb s1.
  assert (Hdb1 : db_accepts s1).
  { eapply db_accepts_le; [apply handleDeletionsWith_world | exact Hdb]. }
  assert (H1 : productModel s1 =
               map (flag_those (filter (fun p => h (Product.id p) = false)
                                  (selected importedIds s))) (productModel s)).
  { subst s1. rewrite handleDeletionsWith_run by (apply Hdb; lia).
    rewrite forEachProduct_run. cbn [env tick set_tick productModel].
    rewrite saved_accepted; [reflexivity |]. intros t Ht. apply Hdb. lia. }
  assert (Hsel : Forall (fun p => h (Product.id p) = true) (selected importedIds s1)).
  { unfold selected at 1. rewrite H1. apply Forall_forall. intros q' Hq'.
    apply list_elem_of_filter in Hq' as [Hd Hq'].
    apply list_elem_of_fmap in Hq' as (q & -> & Hq).
    unfold flag_those in *.
    destruct (bool_decide _) eqn:B; [by rewrite to_delete_flagged in Hd |].
    apply bool_decide_eq_false in B.
    destruct (h (Product.id q)) eqn:Eo; [reflexivity | exfalso].
    apply B. unfold ids. apply list_elem_of_fmap. exists q. split; [reflexivity |].
    apply list_elem_of_filter. split; [exact Eo |].
    apply list_elem_of_filter. auto. }
  unfold handleDeletionsWith, try_catch, find.
  unfold mbind, M_bind, bind. rewrite dbCall_run.
  rewrite (db_accepts_now s1 Hdb1). unfold gets. cbn [productModel set_tick].
  fold (selected importedIds s1). by rewrite forEachProduct_orders.
Qed.

(** ** What no run removes *)

Section Grows.

#[global] Instance references_grow_preorder : PreOrder references_grow.
Proof.
  split.
  - intros s. split; reflexivity.
  - intros s1 s2 s3 [H1 H2] [H3 H4]. split; etransitivity; eauto.
Qed.

Lemma no_write_grow s s' : no_write s s' -> references_grow s s'.
Proof. intros (Hv & Hm & _). split; [by rewrite Hv | by rewrite Hm]. Qed.

Lemma only_products_grow s s' : only_products s s' -> references_grow s s'.
Proof. intros (_ & Hv & Hm & _). split; [by rewrite Hv | by rewrite Hm]. Qed.

Lemma only_flags_grow s s' : only_flags s s' -> references_grow s s'.
Proof. intros (_ & Hv & Hm & _). split; [by rewrite Hv | by rewrite Hm]. Qed.

Lemma getVendorId_grow k n : steps references_grow (VendorService.getVendorId k n).
Proof.
  intros s. destruct (getVendorId_resolved k n s) as (Hm & _ & H).
  split; [| by rewrite Hm].
  destruct (fst _) as [id | e].
  - destruct H as [(_ & _ & ->) | (_ & ->)]; [reflexivity | by apply prefix_app_r].
  - destruct H as [-> _]. reflexivity.
Qed.

Lemma getManufacturerId_grow k n :
  steps references_grow (ManufacturerService.getManufacturerId k n).
Proof.
  intros s. destruct (getManufacturerId_resolved k n s) as (Hv & _ & H).
  split; [by rewrite Hv |].
  destruct (fst _) as [id | e].
  - destruct H as [(_ & _ & ->) | (_ & ->)]; [reflexivity | by apply prefix_app_r].
  - destruct H as [-> _]. reflexivity.
Qed.

Lemma transformRow_grow row : steps references_grow (transformRow row).
Proof.
  unfold transformRow. steps_split; try (intros; split; reflexivity).
  - apply getVendorId_grow.
  - apply getManufacturerId_grow.
  - eapply steps_weaken; [apply no_write_grow | apply enhanceDescription_no_write].
Qed.

Lemma upsertBatch_grow b : steps references_grow (upsertBatch b).
Proof.
  intros s. destruct (upsertBatch_spec b s) as [_ [F _]].
  apply only_products_grow in F. exact F.
Qed.

Lemma step_grow h t : steps references_grow (step h t).
Proof.
  destruct t; cbn [step]; unfold finalFlush, reconcile;
    steps_split; try (intros; split; reflexivity).
  - apply transformRow_grow.
  - apply upsertBatch_grow.
  - apply upsertBatch_grow.
  - eapply steps_weaken; [apply only_flags_grow | apply handleDeletionsWith_only_flags].
Qed.

Lemma importProductsWith_grow h file : steps references_grow (importProductsWith h file).
Proof.
  unfold importProductsWith. steps_split; try (intros; split; reflexivity).
  apply runTasks_steps; [exact _ | apply step_grow].
Qed.

Lemma update_first_identity n d docs :
  map identity (update_first n d docs) = map identity docs.
Proof.
  induction docs as [| q docs IH]; [reflexivity |]. cbn [update_first].
  destruct (name_matches n q); cbn [map]; [reflexivity | by rewrite IH].
Qed.

Lemma updateOne_identity d docs :
  map identity docs `prefix_of` map identity (updateOne d docs).
Proof.
  unfold updateOne. destruct (existsb _ docs).
  - by rewrite update_first_identity.
  - rewrite map_app. by apply prefix_app_r.
Qed.

Lemma write_isDeleted_identity i b docs :
  map identity (map (write_isDeleted i b) docs) = map identity docs.
Proof.
  rewrite map_map. apply map_ext. intros q.
  unfold write_isDeleted. by destruct (Nat.eqb _ _).
Qed.

End Grows.

(** X13: no run removes anything, in any world. After [importProducts]
    the vendors and the manufacturers collection start with the records
    they held before, in the same order; and the products collection
    starts with documents that have the [_id] and the [fullData] of the
    documents stored before, in the same order: no product is deleted,
    none changes its [_id] or its [fullData]. *)
Theorem import_never_removes h file s :
  let s' := snd (importProductsWith h file s) in
  vendorModel s `prefix_of` vendorModel s' /\
  manufacturerModel s `prefix_of` manufacturerModel s' /\
  map identity (productModel s) `prefix_of` map identity (productModel s').
Proof.
  intros s'. destruct (importProductsWith_grow h file s) as [Hv Hm].
  split; [exact Hv |]. split; [exact Hm |].
  apply (importProductsWith_keeps
           (fun l => map identity (productModel s) `prefix_of` map identity l)).
  - intros d l Hl. etransitivity; [exact Hl | apply updateOne_identity].
  - intros i l Hl. by rewrite write_isDeleted_identity.
  - reflexivity.
Qed.

(** ** A feed without usable rows, and the flag *)

Section Flag.

Lemma flagged_already q :
  ProductData.isDeleted (Product.data q) = Some true -> flagged q = q.
Proof.
  destruct q as [i di fd dt]. destruct dt. cbn. intros ->. reflexivity.
Qed.

Lemma to_delete_empty q :
  to_delete ∅ q = negb (bool_decide (ProductData.isDeleted (Product.data q) = Some true)).
Proof.
  unfold to_delete. destruct (ProductData.name (Product.data q)); [| reflexivity].
  rewrite bool_decide_eq_false_2; [reflexivity | apply not_elem_of_empty].
Qed.

Lemma updateOne_elem d docs p :
  p ∈ updateOne d docs -> p ∈ docs \/ Product.data p = Draft.data d.
Proof.
  unfold updateOne. destruct (existsb _ docs).
  - induction docs as [| q docs IH]; cbn [update_first]; [auto |].
    destruct (name_matches _ q).
    + intros H. apply elem_of_cons in H as [-> | H]; [by right |].
      left. apply elem_of_cons. by right.
    + intros H. apply elem_of_cons in H as [-> | H]; [left; apply elem_of_cons; by left |].
      destruct (IH H) as [H1 | H1]; [left; apply elem_of_cons; by right | by right].
  - intros H. apply elem_of_app in H as [H | H]; [by left |].
    apply list_elem_of_singleton in H. subst p. by right.
Qed.

(** The drafts accepted in a run are drafts that [transformRow] returned
    for usable rows of the feed. *)

(** A bulk upsert of drafts that carry no flag raises no flag. *)
Lemma upsertBatch_unflagged (docs0 : list Product.t) b s :
  Forall (fun d => ProductData.isDeleted (Draft.data d) = None) b ->
  (forall p, p ∈ productModel s ->
     ProductData.isDeleted (Product.data p) = Some true -> p ∈ docs0) ->
  forall p, p ∈ productModel (snd (upsertBatch b s)) ->
    ProductData.isDeleted (Product.data p) = Some true -> p ∈ docs0.
Proof.
  intros Hb HP. destruct (upsertBatch_spec b s) as [_ [_ U]]. cbn in U.
  eapply (upserted_preserves
            (fun l => forall p, p ∈ l ->
               ProductData.isDeleted (Product.data p) = Some true -> p ∈ docs0));
    [| exact U | exact HP].
  intros d l Hd Hl p Hp Hdel.
  destruct (updateOne_elem d l p Hp) as [H | H]; [by apply Hl |].
  exfalso. rewrite Forall_forall in Hb. specialize (Hb d Hd). congruence.
Qed.

End Flag.

(** X12: with the deletion flag off, a run never calls [save] and never
    raises a soft-delete flag, in any world and in whatever order the
    handlers go on: a product that carries the flag after the run is a
    product that stood in the collection before the run, untouched. *)
Theorem flag_off_never_flags rows s :
  DELETE_FLAG (env s) = false ->
  let s' := snd (importProducts (Some rows) s) in
  productSaves s' = productSaves s /\
  forall p, p ∈ productModel s' ->
            ProductData.isDeleted (Product.data p) = Some true ->
            p ∈ productModel s.
Proof.
  intros Hflag s'. subst s'. unfold importProducts.
  pose proof (importProductsWith_inv checkExistingOrders
    (fun tasks st =>
       DELETE_FLAG (env st) = false /\ productSaves st = productSaves s /\
       Forall (fun d => ProductData.isDeleted (Draft.data d) = None) (batch st) /\
       Forall (task_ok (fun _ => True)
                 (fun d => ProductData.isDeleted (Draft.data d) = None)) tasks /\
       (forall p, p ∈ productModel st ->
          ProductData.isDeleted (Product.data p) = Some true -> p ∈ productModel s))
    rows s) as H.
  destruct H as (_ & Hs & _ & _ & HP); [| | by split].
  - intros tasks i t st next Ht (Hf & Hs & Hb & HT & HP) Hn.
    pose proof (Forall_lookup_1 _ _ _ _ HT Ht) as Tt.
    destruct t as [row | d | | |]; cbn [task_ok] in Tt.
    + destruct (step_Data_spec checkExistingOrders row st) as (F & _ & Hcase).
      destruct F as (Fe & Fp & Fb & _ & _ & _ & _ & Fs).
      rewrite Fe, Fp, Fb, Fs. repeat (split; [assumption |]). split; [| exact HP].
      apply resume_Forall; [exact HT |]. intros t' ->.
      destruct Hcase as [C | (d & Hd & _ & _ & Hdel)]; [congruence |].
      rewrite Hn in Hd. by injection Hd as ->.
    + rewrite step_Transformed in *. destruct (draft_name d) as [m |];
        [| cbn in *; injection Hn as <-; repeat (split; [assumption |]);
           split; [by apply Forall_delete | exact HP]].
      destruct (String.eqb m "");
        [cbn in *; injection Hn as <-; repeat (split; [assumption |]);
         split; [by apply Forall_delete | exact HP] |].
      cbn zeta in *. cbn [batch push_batch set_importedProductIds] in *.
      assert (Hb' : Forall (fun d0 => ProductData.isDeleted (Draft.data d0) = None)
                      (batch st ++ [d])).
      { apply Forall_app. split; [exact Hb | by constructor]. }
      destruct (Nat.leb batchSize _); cbn [fst snd] in *; injection Hn as <-.
      * set (s2 := set_importedProductIds _ _) in *.
        destruct (upsertBatch_only_products (batch st ++ [d]) s2)
          as (Fe & _ & _ & Fb & _ & _ & _ & _ & Fs). cbn in Fe, Fb, Fs.
        rewrite Fe, Fb, Fs. repeat (split; [assumption |]).
        split; [apply resume_Forall; [exact HT | intros t' [= <-]; exact I] |].
        by apply upsertBatch_unflagged.
      * repeat (split; [assumption |]). split; [by apply Forall_delete | exact HP].
    + rewrite step_Flushed in *. cbn in Hn. injection Hn as <-.
      split; [exact Hf |]. split; [exact Hs |]. split; [constructor |].
      split; [by apply Forall_delete | exact HP].
    + rewrite step_End in *. cbn in Hn. injection Hn as <-. cbn [snd].
      destruct (finalFlush_frame st) as (Fe & Fb & _ & Fs & _).
      rewrite Fe, Fb, Fs. repeat (split; [assumption |]).
      split; [apply resume_Forall; [exact HT | intros t' [= <-]; exact I] |].
      rewrite finalFlush_run. destruct (Nat.ltb 0 _); [| exact HP].
      by apply upsertBatch_unflagged.
    + rewrite step_EndFlushed in *. cbn in Hn. injection Hn as <-. cbn [snd].
      rewrite reconcile_run, Hf. cbn [snd]. repeat (split; [assumption |]).
      split; [by apply Forall_delete | exact HP].
  - split; [exact Hflag |]. split; [reflexivity |]. split; [constructor |].
    split; [| auto].
    apply Forall_app. split; [| repeat constructor].
    apply Forall_forall. intros t Ht. by apply list_elem_of_fmap in Ht as (row & -> & _).
Qed.

(** X20: the set of imported names is sound, in any world and in
    whatever order the handlers go on. Every name that stands in the set
    of imported names at the end of a run is the product name of a row of
    the feed that has a manufacturer name and a product name, both
    defined and non-empty. *)
Theorem imported_names_sound h rows s n :
  n ∈ importedProductIds (snd (importProductsWith h (Some rows) s)) ->
  exists row, row ∈ rows /\ usable row = true /\ ProductName row = Some n.
Proof.
  pose proof (importProductsWith_inv h
    (fun tasks st =>
       (forall m, m ∈ importedProductIds st ->
          exists row, row ∈ rows /\ usable row = true /\ ProductName row = Some m) /\
       Forall (task_ok (fun row => row ∈ rows)
                 (fun d => Js.truthy (draft_name d) = true ->
                    exists row, row ∈ rows /\ usable row = true /\
                                ProductName row = draft_name d)) tasks)
    rows s) as H.
  destruct H as [HQ _]; [| | exact (HQ n)].
  - intros tasks i t st next Ht (HQ & HT) Hn.
    pose proof (Forall_lookup_1 _ _ _ _ HT Ht) as Tt.
    destruct t as [row | d | | |]; cbn [task_ok] in Tt.
    + destruct (step_Data_spec h row st) as (F & _ & Hcase).
      destruct F as (_ & _ & _ & Fi & _). rewrite Fi. split; [exact HQ |].
      apply resume_Forall; [exact HT |]. intros t' ->.
      destruct Hcase as [C | (d & Hd & Hm & Hname & _)]; [congruence |].
      rewrite Hn in Hd. injection Hd as ->. cbn. intros Htr. exists row.
      split; [exact Tt |]. split; [| by rewrite Hname].
      apply usable_spec. split; [exact Hm | by rewrite <- Hname].
    + rewrite step_Transformed in *. destruct (draft_name d) as [m |] eqn:Ed;
        [| cbn in *; injection Hn as <-; split; [exact HQ | by apply Forall_delete]].
      destruct (String.eqb_spec m "") as [-> | Hm];
        [cbn in *; injection Hn as <-; split; [exact HQ | by apply Forall_delete] |].
      assert (HQ' : forall m0, m0 ∈ ({[ m ]} ∪ importedProductIds st : gset string) ->
                exists row, row ∈ rows /\ usable row = true /\ ProductName row = Some m0).
      { intros m0 Hm0. apply elem_of_union in Hm0 as [Hm0 | Hm0]; [| by apply HQ].
        apply elem_of_singleton in Hm0. subst m0. apply Tt. cbn.
        by apply String.eqb_neq in Hm; rewrite Hm. }
      cbn zeta in *. cbn [batch push_batch set_importedProductIds] in *.
      destruct (Nat.leb batchSize _); cbn [fst snd] in *; injection Hn as <-.
      * set (s2 := set_importedProductIds _ _) in *.
        destruct (upsertBatch_only_products (batch st ++ [d]) s2)
          as (_ & _ & _ & _ & Fi & _). cbn in Fi. rewrite Fi.
        split; [exact HQ' |].
        apply resume_Forall; [exact HT | intros t' [= <-]; exact I].
      * split; [exact HQ' | by apply Forall_delete].
    + rewrite step_Flushed in *. cbn in Hn. injection Hn as <-.
      split; [exact HQ | by apply Forall_delete].
    + rewrite step_End in *. cbn in Hn. injection Hn as <-. cbn [snd].
      destruct (finalFlush_frame st) as (_ & _ & Fi & _). rewrite Fi.
      split; [exact HQ |].
      apply resume_Forall; [exact HT | intros t' [= <-]; exact I].
    + rewrite step_EndFlushed in *. cbn in Hn. injection Hn as <-. cbn [snd].
      destruct (reconcile_only_flags h st) as (_ & _ & _ & _ & Fi & _). rewrite Fi.
      split; [exact HQ | by apply Forall_delete].
  - split; [intros m Hm; by apply not_elem_of_empty in Hm |].
    apply Forall_app. split; [| repeat constructor].
    apply Forall_forall. intros t Ht. by apply list_elem_of_fmap in Ht as (row & -> & Hr).
Qed.

(** The pass with no name imported, on a store that accepts every call:
    every product ends flagged. *)
Lemma reconcile_flags_all s1 :
  DELETE_FLAG (env s1) = true -> db_accepts s1 -> importedProductIds s1 = ∅ ->
  productModel (snd (reconcile checkExistingOrders s1)) = map flagged (productModel s1).
Proof.
  intros Hflag Hdb Hi. rewrite reconcile_run, Hflag, Hi.
  rewrite handleDeletionsWith_run by (apply Hdb; lia).
  rewrite forEachProduct_run. cbn [env tick set_tick productModel].
  rewrite saved_accepted by (intros t Ht; apply Hdb; cbn in *; lia).
  apply map_ext_in. intros q Hq. unfold flag_those.
  destruct (bool_decide _) eqn:B; [reflexivity |].
  apply bool_decide_eq_false in B.
  destruct (ProductData.isDeleted (Product.data q)) as [[|] |] eqn:Ed;
    [symmetry; by apply flagged_already | exfalso | exfalso];
    apply B; apply list_elem_of_fmap; exists q; (split; [reflexivity |]);
    apply list_elem_of_filter; (split; [reflexivity |]);
    apply list_elem_of_filter; (split; [| by apply list_elem_of_In]);
    rewrite to_delete_empty, Ed; reflexivity.
Qed.

(** X11: a feed in which no row has a manufacturer name (an empty
    file, say), with the deletion flag set and a store that accepts every
    call: the run leaves every stored product flagged as deleted, and
    changes nothing else in it, in whatever order the handlers go on. A
    file that is missing leaves the products collection as it was. *)
Theorem feed_without_manufacturers rows s :
  Forall (fun row => Js.truthy (ManufacturerName row) = false) rows ->
  DELETE_FLAG (env s) = true ->
  db_accepts s ->
  productModel (snd (importProducts (Some rows) s)) = map flagged (productModel s) /\
  productModel (snd (importProducts None s)) = productModel s.
Proof.
  intros Hrows Hflag Hdb. split; [| reflexivity]. unfold importProducts.
  set (s1 := set_importedProductIds ∅ (reset_batch s)).
  pose proof (importProductsWith_inv checkExistingOrders
    (fun tasks st =>
       Forall (task_ok (fun row => Js.truthy (ManufacturerName row) = false)
                 (fun _ => False)) tasks /\
       ((ends tasks = 1%nat /\ st = s1) \/
        (ends tasks = 0%nat /\
         productModel st = map flagged (productModel s) /\ batch st = [])))
    rows s) as H.
  destruct H as (_ & [[C _] | (_ & Hp & _)]); [| | discriminate C | exact Hp].
  - intros tasks i t st next Ht (HT & Hst) Hn.
    pose proof (ends_resume i next tasks t Ht) as He.
    pose proof (Forall_lookup_1 _ _ _ _ HT Ht) as Tt.
    destruct t as [row | d | | |]; cbn [task_ok is_end] in *; [| contradiction | | |].
    + rewrite step_Data, Tt in *. cbn in Hn. injection Hn as <-. cbn [snd].
      split; [by apply Forall_delete |].
      destruct Hst as [[H1 H2] | [H1 H2]]; [left | right]; (split; [lia | exact H2]).
    + rewrite step_Flushed in *. cbn in Hn. injection Hn as <-. cbn [snd].
      split; [by apply Forall_delete |].
      destruct Hst as [[H1 ->] | [H1 [H2 H3]]]; [left | right]; (split; [lia |]);
        [reflexivity | by split].
    + rewrite step_End in *. cbn in Hn. injection Hn as <-. cbn [snd is_end] in *.
      split; [apply resume_Forall; [exact HT | intros t' [= <-]; exact I] |].
      rewrite finalFlush_run.
      destruct Hst as [[H1 ->] | [H1 [H2 H3]]]; [left | right]; (split; [lia |]).
      * reflexivity.
      * rewrite H3. cbn. by split.
    + rewrite step_EndFlushed in *. cbn in Hn. injection Hn as <-. cbn [snd] in *.
      split; [by apply Forall_delete |].
      destruct Hst as [[H1 ->] | [H1 _]]; [| lia].
      right. split; [lia |]. split.
      * rewrite reconcile_flags_all; [reflexivity | exact Hflag | exact Hdb | reflexivity].
      * by destruct (reconcile_only_flags checkExistingOrders s1) as (_ & _ & _ & -> & _).
  - split.
    + apply Forall_app. split; [| repeat constructor].
      apply Forall_forall. intros t Ht. apply list_elem_of_fmap in Ht as (row & -> & Hr).
      cbn. rewrite Forall_forall in Hrows. by apply Hrows.
    + left. split; [apply ends_start | reflexivity].
Qed.

(** ** The description of a draft *)

Section DraftDescription.

Import DescriptionEnhancerService.

Lemma nanoid_run s : nanoid s = (Ok (nanoidAt (env s) (tick s)), set_tick (S (tick s)) s).
Proof. reflexivity. Qed.

End DraftDescription.

(** X16: the description of a draft. When [transformRow] returns a
    draft for a row, its description is what the completion service
    answered, at one instant of the call, to the prompt built from the
    product name, the category and the description of the row: the text
    of the first choice, trimmed, or the description of the row (the empty
    string when the row has none) when there is no such text. So when the
    completion service gives no text at any instant, the draft carries
    the feed's own description. *)
Theorem transformRow_description row s d s' :
  transformRow row s = (Ok d, s') ->
  let prompt := DescriptionEnhancerService.constructPrompt
                  (ProductName row) (PrimaryCategoryName row) (ProductDescription row) in
  (exists t, (tick s < t < tick s')%nat /\
     ProductData.description (Draft.data d) =
       match first_text (completionAt (env s) t prompt) with
       | Some x => Js.trim x
       | None => original (ProductDescription row)
       end) /\
  ((forall t, first_text (completionAt (env s) t prompt) = None) ->
   ProductData.description (Draft.data d) = original (ProductDescription row)).
Proof.
  intros H prompt.
  assert (E : exists t, (tick s < t < tick s')%nat /\
     ProductData.description (Draft.data d) =
       match first_text (completionAt (env s) t prompt) with
       | Some x => Js.trim x
       | None => original (ProductDescription row)
       end).
  { revert H. unfold transformRow. unfold mbind, M_bind, bind.
    rewrite nanoid_run.
    set (s1 := set_tick (S (tick s)) s).
    pose proof (getVendorId_world (Js.parseInt (ManufacturerID row))
                  (ManufacturerName row) s1) as [We2 Wt2].
    destruct (VendorService.getVendorId _ _ s1) as [[vendorId | ?] s2]; [| discriminate].
    pose proof (getManufacturerId_world (Js.parseInt (ManufacturerID row))
                  (ManufacturerName row) s2) as [We3 Wt3].
    destruct (ManufacturerService.getManufacturerId _ _ s2) as [[manufacturerId | ?] s3];
      [| discriminate].
    rewrite enhanceDescription_run, nanoid_run. unfold ret. intros [= <- <-].
    cbn in *. exists (S (tick s3)). split; [lia |].
    fold prompt. by rewrite We3, We2. }
  split; [exact E |]. intros Hdown. destruct E as (t & _ & ->). by rewrite Hdown.
Qed.

(** ** The pass with the order check of the source *)

(** X18: the pass with the order check of the source, which answers
    that no product has orders. When the store accepts every call and the
    [_id]s are distinct, [handleDeletions] flags every product that its
    query selects (not flagged, and of a name that is not among the
    imported names) and leaves every other product as it was: no product
    is spared for having orders. *)
Theorem handleDeletions_flags_selected importedIds s :
  NoDup (ids (productModel s)) ->
  db_accepts s ->
  productModel (snd (handleDeletions importedIds s)) =
  map (fun q => if to_delete importedIds q then flagged q else q) (productModel s).
Proof.
  intros Hnd Hdb.
  pose proof (handleDeletionsWith_accepted importedIds checkExistingOrders s Hnd Hdb) as HR.
  unfold handleDeletions.
  revert HR. generalize (productModel (snd (handleDeletionsWith checkExistingOrders importedIds s))).
  generalize (productModel s). intros docs docs' HR.
  induction HR as [| q q' docs docs' Hq _ IH]; [reflexivity |].
  cbn [map]. rewrite <- IH. f_equal.
  unfold reconciled, checkExistingOrders in Hq.
  by destruct (to_delete importedIds q).
Qed.

(** ** The run when the store is down *)

Section StoreDown.

Lemma db_rejects_le s s' : world_le s s' -> db_rejects s -> db_rejects s'.
Proof. intros [He Ht] H t Hle. rewrite He. apply H. lia. Qed.

Lemma getVendorId_rejected k n s :
  db_rejects s ->
  exists e, VendorService.getVendorId k n s = (Throw e, set_tick (S (tick s)) s).
Proof.
  intros H. unfold VendorService.getVendorId, VendorService.findOne.
  unfold mbind, M_bind, bind, try_catch. rewrite dbCall_run.
  destruct (dbRejects (env s) (tick s)) as [e |] eqn:E.
  - exists e. reflexivity.
  - exfalso. by apply (H (tick s)).
Qed.

Lemma transformRow_rejected row s :
  db_rejects s ->
  exists e, transformRow row s = (Throw e, set_tick (2 + tick s) s).
Proof.
  intros H. unfold transformRow. unfold mbind, M_bind, bind.
  rewrite nanoid_run.
  destruct (getVendorId_rejected (Js.parseInt (ManufacturerID row)) (ManufacturerName row)
              (set_tick (S (tick s)) s)) as [e He].
  { intros t Ht. cbn in *. apply H. lia. }
  rewrite He. exists e. reflexivity.
Qed.

End StoreDown.

(** X19: a run while the store is down. When the store rejects every
    call, [importProducts] still returns without an error; every row is
    skipped, no bulk write is issued and no [save] is called; and the
    three collections are as they were before the run, in whatever order
    the handlers go on. *)
Theorem import_with_store_down file s :
  db_rejects s ->
  let s' := snd (importProducts file s) in
  fst (importProducts file s) = Ok tt /\
  vendorModel s' = vendorModel s /\ manufacturerModel s' = manufacturerModel s /\
  productModel s' = productModel s /\
  bulkWrites s' = bulkWrites s /\ productSaves s' = productSaves s.
Proof.
  intros H s'. split; [apply importProductsWith_returns |]. subst s'.
  destruct file as [rows |]; [| repeat split]. unfold importProducts.
  pose proof (importProductsWith_inv checkExistingOrders
    (fun tasks st =>
       Forall (task_ok (fun _ => True) (fun _ => False)) tasks /\
       db_rejects st /\ batch st = [] /\
       vendorModel st = vendorModel s /\ manufacturerModel st = manufacturerModel s /\
       productModel st = productModel s /\
       bulkWrites st = bulkWrites s /\ productSaves st = productSaves s)
    rows s) as HI.
  destruct HI as (_ & _ & _ & HI); [| | exact HI].
  - intros tasks i t st next Ht (HT & Hdb & Hb & Hst) Hn.
    pose proof (Forall_lookup_1 _ _ _ _ HT Ht) as Tt.
    destruct t as [row | d | | |]; cbn [task_ok] in Tt; [| contradiction | | |].
    + rewrite step_Data in *. destruct (Js.truthy _).
      * destruct (transformRow_rejected row st Hdb) as [e He]. rewrite He in *.
        cbn in Hn. injection Hn as <-. cbn [snd].
        split; [by apply Forall_delete |]. split; [| by split].
        intros t Hle. cbn in *. apply Hdb. lia.
      * cbn in Hn. injection Hn as <-. cbn [snd].
        split; [by apply Forall_delete | auto].
    + rewrite step_Flushed in *. cbn in Hn. injection Hn as <-.
      split; [by apply Forall_delete |]. split; [exact Hdb |]. split; [reflexivity |].
      exact Hst.
    + rewrite step_End in *. cbn in Hn. injection Hn as <-. cbn [snd].
      split; [apply resume_Forall; [exact HT | intros t' [= <-]; exact I] |].
      rewrite finalFlush_run, Hb. cbn. auto.
    + rewrite step_EndFlushed in *. cbn in Hn. injection Hn as <-. cbn [snd].
      split; [by apply Forall_delete |].
      rewrite reconcile_run. destruct (DELETE_FLAG _); [| auto].
      destruct (dbRejects (env st) (tick st)) as [e |] eqn:E.
      * rewrite (handleDeletionsWith_rejected _ _ _ e) by exact E. cbn.
        split; [| by split]. intros t Hle. cbn in *. apply Hdb. lia.
      * exfalso. by apply (Hdb (tick st)).
  - split.
    + apply Forall_app. split; [| repeat constructor].
      apply Forall_forall. intros t Ht. by apply list_elem_of_fmap in Ht as (row & -> & _).
    + split; [exact H |]. repeat split.
Qed.

(** * Concrete inputs *)

(** ** The claims on concrete inputs *)

Import Example.

Example parseFloat_literals :
  Js.parseFloat (Some "2.50") = 2.5%float /\
  Js.parseFloat (Some "  -3.25e2 USD") = (-325)%float /\
  Js.parseFloat (Some ".5") = 0.5%float /\
  Js.parseFloat (Some "n/a") = nan /\
  Js.parseFloat (Some "") = nan /\
  Js.parseFloat None = nan.
Proof. vm_compute. repeat split. Qed.

Example parseInt_toString :
  Js.toString (Js.parseInt (Some " 077")) = "77" /\
  Js.toString (Js.parseInt (Some "-12.5")) = "-12" /\
  Js.toString (Js.parseInt (Some "x1")) = "NaN" /\
  Js.toString (Js.parseInt None) = "NaN".
Proof. vm_compute. repeat split. Qed.

(** A row whose unit price is not a number gets a cost and a price of 0. *)
Example transformRow_tape :
  exists d s', transformRow tape_unnamed (start quiet []) = (Ok d, s') /\
    exists v, ProductData.variants (Draft.data d) = [v] /\
      Variant.price v = 0%float /\ Variant.cost v = 0%float /\
      Variant.sku v = "TP1RL" /\ Variant.available v = false.
Proof. vm_compute. do 2 eexists. split; [reflexivity |]. eexists. repeat split. Qed.

(** The batch is flushed when it reaches 1000 drafts, and what is left is
    flushed at the end of the stream. *)
Example flush_at_threshold :
  let s' := snd (importProducts (Some (repeat gauze 1001)) (start quiet [])) in
  map (@length _) (bulkWrites s') = [1000; 1]%nat /\ batchPeak s' = 1000%nat /\
  length (accepted s') = 1001%nat /\ length (productModel s') = 1%nat.
Proof. vm_compute. repeat split. Qed.

(** A resolver whose store call is rejected makes [transformRow] raise,
    and the row is skipped. *)
Example resolver_failure_skips_row :
  fst (transformRow gauze (start db_down shelf)) = Throw (Js.mkError "ECONNREFUSED") /\
  fst (onData gauze (start db_down shelf)) = Ok tt /\
  batch (snd (onData gauze (start db_down shelf))) = [] /\
  productModel (snd (onData gauze (start db_down shelf))) = shelf.
Proof. vm_compute. repeat split. Qed.

(** Every import of the same row leaves one more manufacturer and one
    more vendor behind. *)
Example one_reference_record_per_row :
  let s' := snd (importProducts (Some [gauze; gauze; gauze]) (start quiet [])) in
  length (manufacturerModel s') = 3%nat /\ length (vendorModel s') = 3%nat /\
  length (productModel s') = 1%nat.
Proof. vm_compute. repeat split. Qed.

Example transformRow_gauze :
  exists d s', transformRow gauze (start quiet []) = (Ok d, s') /\
    exists v, ProductData.variants (Draft.data d) = [v] /\
      Variant.price v = 3%float /\ Variant.cost v = 2.5%float /\
      Variant.sku v = "GZ1BX" /\ Variant.available v = true.
Proof. vm_compute. do 2 eexists. split; [reflexivity |]. eexists. repeat split. Qed.

Lemma enhanceDescription_best_effort_witness :
  completion_failed
    (completionAt (env (start offline [])) (S (tick (start offline [])))
       (DescriptionEnhancerService.constructPrompt (Some "Gauze") None (Some "Soft gauze"))) /\
  fst (DescriptionEnhancerService.enhanceDescription (Some "Gauze") None (Some "Soft gauze")
         (start offline [])) = Ok "Soft gauze".
Proof.
  split; [exact I |].
  apply (proj2 (enhanceDescription_best_effort (Some "Gauze") None (Some "Soft gauze")
                  (start offline []))).
  exact I.
Defined.


Lemma reimport_no_duplicates_witness :
  NoDup (names (productModel (start quiet shelf))) /\
  let s1 := snd (importProducts (Some [gauze; gauze; tape_unnamed]) (start quiet shelf)) in
  let s2 := snd (importProducts (Some [gauze; gauze; tape_unnamed]) s1) in
  NoDup (names (productModel s1)) /\ NoDup (names (productModel s2)).
Proof.
  assert (H : NoDup (names (productModel (start quiet shelf)))).
  { apply (bool_decide_unpack _). vm_compute. exact I. }
  split; [exact H |].
  apply (reimport_no_duplicates checkExistingOrders (Some [gauze; gauze; tape_unnamed])
           (start quiet shelf) H).
Defined.

Lemma onData_skips_witness :
  Js.truthy (ManufacturerName tape_unnamed) = false /\
  only_references (start quiet shelf) (snd (onData tape_unnamed (start quiet shelf))).
Proof.
  split; [reflexivity |].
  apply (proj2 (proj2 (proj2 (onData_skips tape_unnamed (start quiet shelf))))).
  left. reflexivity.
Defined.


(** The same run, evaluated: "Gauze" is in the feed and ends flagged, and
    its draft is on a batch that was never written. *)
Example end_overtakes_the_row :
  let s' := snd (importProductsWith swab_has_orders (Some [gauze])
                   (start Scenario.eager_end shelf)) in
  map (fun p => (product_name p, Product.docId p, ProductData.isDeleted (Product.data p)))
      (productModel s') =
  [ (Some "Gauze", "d1", Some true); (Some "Tape", "d2", Some true);
    (Some "Swab", "d3", None) ] /\
  map draft_name (batch s') = [Some "Gauze"] /\ bulkWrites s' = [].
Proof. vm_compute. repeat split. Qed.

Example reconciliation_on_the_shelf :
  let s' := snd (importProductsWith swab_has_orders (Some [gauze; tape_unnamed])
                   (start quiet shelf)) in
  map (fun p => (product_name p, ProductData.isDeleted (Product.data p), Product.fullData p))
      (productModel s') =
  [ (Some "Gauze", None, Some "legacy");
    (Some "Tape", Some true, None);
    (Some "Swab", None, None) ].
Proof. vm_compute. reflexivity. Qed.

Lemma resolver_second_call_mints_again_witness :
  let s := start quiet [] in
  let s1 := snd (ManufacturerService.getManufacturerId (Js.Int 77) (Some "Acme") s) in
  let s2 := snd (ManufacturerService.getManufacturerId (Js.Int 77) (Some "Acme") s1) in
  (db_accepts s /\ seen_by_manufacturer (Js.Int 77) s = false /\
   seen_by_vendor (Js.Int 77) s = false /\
   nanoidAt (env s) (1 + tick s) <> Js.toString (Js.Int 77)) /\
  fst (ManufacturerService.getManufacturerId (Js.Int 77) (Some "Acme") s) = Ok "id1" /\
  fst (ManufacturerService.getManufacturerId (Js.Int 77) (Some "Acme") s1) = Ok "id4" /\
  manufacturerModel s2 =
    [Manufacturer.mk "id1" (Some "Acme"); Manufacturer.mk "id4" (Some "Acme")].
Proof.
  intros s s1 s2.
  assert (H1 : db_accepts s) by (intros t _; split; reflexivity).
  assert (H2 : seen_by_manufacturer (Js.Int 77) s = false) by reflexivity.
  assert (H3 : seen_by_vendor (Js.Int 77) s = false) by reflexivity.
  assert (H4 : nanoidAt (env s) (1 + tick s) <> Js.toString (Js.Int 77)).
  { vm_compute. discriminate. }
  split; [auto |].
  exact (proj1 (resolver_second_call_mints_again (Js.Int 77) (Some "Acme") s H1 H2 H3 H4)).
Defined.



(** C8 as stated fails: after the upsert of a draft for "Gauze" over the
    stored "Gauze", the stored document still has the [fullData] (and the
    [_id]) it had before, so it is not the draft and nothing else. *)
Lemma upsert_keeps_fullData :
  let s := start quiet shelf in
  let d := draft "Gauze" "d9" in
  let s' := snd (upsertBatch [d] s) in
  exists p', p' ∈ productModel s' /\ product_name p' = draft_name d /\
    Product.fullData p' = Some "legacy" /\ Product._id p' = 1%nat /\
    ~ replaced_by d p'.
Proof.
  exists (Product.mk 1 "d9" (Some "legacy") (Draft.data (draft "Gauze" "d9"))).
  split; [vm_compute; apply list_elem_of_here |].
  repeat split. intros (_ & _ & C). discriminate C.
Qed.

Lemma upsertBatch_overwrites_witness :
  let s := start quiet shelf in
  let d := draft "Gauze" "d9" in
  let p := stored 1 "Gauze" "d1" (Some "legacy") None in
  let s' := snd (upsertBatch ([draft "Lint" "d8"] ++ (d :: [draft "Tape" "d7"]))%list s) in
  (db_accepts s /\ NoDup (names (productModel s)) /\ p ∈ productModel s /\
   product_name p = draft_name d /\
   Forall (fun d' => draft_name d' <> draft_name d) [draft "Lint" "d8"] /\
   Forall (fun d' => draft_name d' <> draft_name d) [draft "Tape" "d7"]) /\
  exists p', p' ∈ productModel s' /\ set_from d p p' /\
    forall q, q ∈ productModel s' -> product_name q = draft_name d -> q = p'.
Proof.
  intros s d p s'.
  assert (H1 : db_accepts s) by (intros t _; split; reflexivity).
  assert (H2 : NoDup (names (productModel s))).
  { apply (bool_decide_unpack _). vm_compute. exact I. }
  assert (H3 : p ∈ productModel s) by (apply elem_of_cons; by left).
  assert (H4 : product_name p = draft_name d) by reflexivity.
  assert (H5 : Forall (fun d' => draft_name d' <> draft_name d) [draft "Lint" "d8"]).
  { constructor; [discriminate | constructor]. }
  assert (H6 : Forall (fun d' => draft_name d' <> draft_name d) [draft "Tape" "d7"]).
  { constructor; [discriminate | constructor]. }
  split; [auto 10 |].
  apply (upsertBatch_overwrites [draft "Lint" "d8"] d [draft "Tape" "d7"] s p
           H1 H2 H3 H4 H5 H6).
Defined.


(** ** The further properties on concrete inputs *)

Import Scenario.

Example enhanceDescription_textless_choice :
  DescriptionEnhancerService.enhanceDescription (Some "Gauze") None (Some "Soft gauze")
    (start textless []) =
  (Ok "Soft gauze", set_tick 2 (start textless [])).
Proof. reflexivity. Qed.

Example trim_no_break_space :
  Js.trim (String (ascii_of_nat 194) (String (ascii_of_nat 160) " Gauze ")) = "Gauze" /\
  Js.blank (String (ascii_of_nat 194) (String (ascii_of_nat 160) " ")) = true.
Proof. split; reflexivity. Qed.

Example bulk_write_goes_on_after_a_rejection :
  let s' := snd (upsertBatch [draft "Lint" "d8"; draft "Gauze" "d9"]
                   (start (unruly 0) shelf)) in
  map (fun p => (product_name p, Product.docId p)) (productModel s') =
  [ (Some "Gauze", "d9"); (Some "Tape", "d2"); (Some "Swab", "d3") ].
Proof. vm_compute. reflexivity. Qed.

(** Two drafts of one name in a bulk write: the store that takes the
    second one first leaves the first one in the collection. *)
Example store_order_decides :
  let s' := snd (upsertBatch [draft "Gauze" "d8"; draft "Gauze" "d9"]
                   (start (unruly 7) shelf)) in
  map (fun p => (product_name p, Product.docId p)) (productModel s') =
  [ (Some "Gauze", "d8"); (Some "Tape", "d2"); (Some "Swab", "d3") ].
Proof. vm_compute. reflexivity. Qed.

Example pass_stops_at_the_rejected_save :
  let s' := snd (handleDeletions ∅ (start (rejecting_at 2) shelf)) in
  map (fun p => (product_name p, ProductData.isDeleted (Product.data p))) (productModel s') =
  [ (Some "Gauze", Some true); (Some "Tape", None); (Some "Swab", None) ].
Proof. vm_compute. reflexivity. Qed.

Lemma enhanceDescription_first_choice_witness :
  first_text (completionAt (env (start quiet [])) (S (tick (start quiet [])))
                (DescriptionEnhancerService.constructPrompt (Some "Gauze") None None)) =
    Some " Sterile woven gauze. " /\
  fst (DescriptionEnhancerService.enhanceDescription (Some "Gauze") None None
         (start quiet [])) = Ok "Sterile woven gauze.".
Proof.
  split; [reflexivity |].
  exact (proj1 (enhanceDescription_first_choice (Some "Gauze") None None (start quiet [])
                  " Sterile woven gauze. " eq_refl)).
Defined.

Lemma transformRow_references_witness :
  exists d s', transformRow gauze (start quiet []) = (Ok d, s') /\
    ProductData.vendorId (Draft.data d) ∈ map Vendor.vendorId (vendorModel s') /\
    ProductData.manufacturerId (Draft.data d)
      ∈ map Manufacturer.manufacturerId (manufacturerModel s').
Proof.
  assert (Hdb : db_accepts (start quiet [])) by (intros t _; split; reflexivity).
  destruct (transformRow_accepted gauze (start quiet []) Hdb) as (d & s' & E).
  exists d, s'. split; [exact E |].
  exact (transformRow_references gauze (start quiet []) d s' E).
Defined.

Lemma upsertBatch_inserts_witness :
  (db_accepts (start quiet shelf) /\
   draft_name (draft "Lint" "d9") ∉ names (productModel (start quiet shelf))) /\
  exists p,
    productModel (snd (upsertBatch [draft "Lint" "d9"] (start quiet shelf))) =
      (productModel (start quiet shelf) ++ [p])%list /\
    Product.docId p = Draft.docId (draft "Lint" "d9") /\
    Product.data p = Draft.data (draft "Lint" "d9") /\
    Product.fullData p = None /\ Product._id p ∉ ids (productModel (start quiet shelf)).
Proof.
  assert (H1 : db_accepts (start quiet shelf)) by (intros t _; split; reflexivity).
  assert (H2 : draft_name (draft "Lint" "d9") ∉ names (productModel (start quiet shelf))).
  { apply (bool_decide_unpack _). vm_compute. exact I. }
  split; [auto |].
  exact (upsertBatch_inserts (draft "Lint" "d9") (start quiet shelf) H1 H2).
Defined.

Lemma upsertBatch_idempotent_witness :
  (db_accepts (start quiet shelf) /\
   NoDup (map draft_name [draft "Gauze" "d8"; draft "Lint" "d9"])) /\
  productModel (snd (upsertBatch [draft "Gauze" "d8"; draft "Lint" "d9"]
                       (snd (upsertBatch [draft "Gauze" "d8"; draft "Lint" "d9"]
                               (start quiet shelf))))) =
  productModel (snd (upsertBatch [draft "Gauze" "d8"; draft "Lint" "d9"]
                       (start quiet shelf))).
Proof.
  assert (H1 : db_accepts (start quiet shelf)) by (intros t _; split; reflexivity).
  assert (H2 : NoDup (map draft_name [draft "Gauze" "d8"; draft "Lint" "d9"])).
  { apply (bool_decide_unpack _). vm_compute. exact I. }
  split; [auto |].
  exact (upsertBatch_idempotent [draft "Gauze" "d8"; draft "Lint" "d9"]
           (start quiet shelf) H1 H2).
Defined.

Lemma handleDeletions_idempotent_witness :
  db_accepts (start quiet shelf) /\
  let s1 := snd (handleDeletionsWith swab_has_orders {[ "Gauze" ]} (start quiet shelf)) in
  handleDeletionsWith swab_has_orders {[ "Gauze" ]} s1 = (Ok tt, set_tick (S (tick s1)) s1).
Proof.
  assert (H : db_accepts (start quiet shelf)) by (intros t _; split; reflexivity).
  split; [exact H |].
  exact (handleDeletions_idempotent swab_has_orders {[ "Gauze" ]} (start quiet shelf) H).
Defined.

Lemma feed_without_manufacturers_witness :
  (Forall (fun row => Js.truthy (ManufacturerName row) = false) [tape_unnamed] /\
   DELETE_FLAG (env (start quiet shelf)) = true /\ db_accepts (start quiet shelf)) /\
  productModel (snd (importProducts (Some [tape_unnamed]) (start quiet shelf))) =
    map flagged (productModel (start quiet shelf)) /\
  productModel (snd (importProducts None (start quiet shelf))) =
    productModel (start quiet shelf).
Proof.
  assert (H1 : Forall (fun row => Js.truthy (ManufacturerName row) = false) [tape_unnamed]).
  { constructor; [reflexivity | constructor]. }
  assert (H2 : DELETE_FLAG (env (start quiet shelf)) = true) by reflexivity.
  assert (H3 : db_accepts (start quiet shelf)) by (intros t _; split; reflexivity).
  split; [auto |].
  exact (feed_without_manufacturers [tape_unnamed] (start quiet shelf) H1 H2 H3).
Defined.

Lemma flag_off_never_flags_witness :
  DELETE_FLAG (env (start no_flag shelf)) = false /\
  let s' := snd (importProducts (Some [gauze; tape_unnamed]) (start no_flag shelf)) in
  productSaves s' = productSaves (start no_flag shelf) /\
  forall p, p ∈ productModel s' ->
            ProductData.isDeleted (Product.data p) = Some true ->
            p ∈ productModel (start no_flag shelf).
Proof.
  split; [reflexivity |].
  exact (flag_off_never_flags [gauze; tape_unnamed] (start no_flag shelf) eq_refl).
Defined.

Lemma transformRow_description_witness :
  exists d s', transformRow gauze (start offline []) = (Ok d, s') /\
    ProductData.description (Draft.data d) = original (ProductDescription gauze).
Proof.
  assert (Hdb : db_accepts (start offline [])) by (intros t _; split; reflexivity).
  destruct (transformRow_accepted gauze (start offline []) Hdb) as (d & s' & E).
  exists d, s'. split; [exact E |].
  exact (proj2 (transformRow_description gauze (start offline []) d s' E)
           (fun t => eq_refl)).
Defined.

Lemma handleDeletions_flags_selected_witness :
  (NoDup (ids (productModel (start quiet shelf))) /\ db_accepts (start quiet shelf)) /\
  productModel (snd (handleDeletions {[ "Gauze" ]} (start quiet shelf))) =
  map (fun q => if to_delete {[ "Gauze" ]} q then flagged q else q)
      (productModel (start quiet shelf)).
Proof.
  assert (H1 : NoDup (ids (productModel (start quiet shelf)))).
  { apply (bool_decide_unpack _). vm_compute. exact I. }
  assert (H2 : db_accepts (start quiet shelf)) by (intros t _; split; reflexivity).
  split; [auto |].
  exact (handleDeletions_flags_selected {[ "Gauze" ]} (start quiet shelf) H1 H2).
Defined.

Lemma import_with_store_down_witness :
  db_rejects (start db_down shelf) /\
  let s' := snd (importProducts (Some [gauze; tape_unnamed]) (start db_down shelf)) in
  fst (importProducts (Some [gauze; tape_unnamed]) (start db_down shelf)) = Ok tt /\
  vendorModel s' = vendorModel (start db_down shelf) /\
  manufacturerModel s' = manufacturerModel (start db_down shelf) /\
  productModel s' = productModel (start db_down shelf) /\
  bulkWrites s' = bulkWrites (start db_down shelf) /\
  productSaves s' = productSaves (start db_down shelf).
Proof.
  assert (H : db_rejects (start db_down shelf)) by (intros t _; discriminate).
  split; [exact H |].
  exact (import_with_store_down (Some [gauze; tape_unnamed]) (start db_down shelf) H).
Defined.

Lemma imported_names_sound_witness :
  "Gauze" ∈ importedProductIds
              (snd (importProductsWith swab_has_orders (Some [gauze; tape_unnamed])
                      (start quiet shelf))) /\
  exists row, row ∈ [gauze; tape_unnamed] /\ usable row = true /\
              ProductName row = Some "Gauze".
Proof.
  assert (H : "Gauze" ∈ importedProductIds
                (snd (importProductsWith swab_has_orders (Some [gauze; tape_unnamed])
                        (start quiet shelf)))).
  { apply (bool_decide_unpack _). vm_compute. exact I. }
  split; [exact H |].
  exact (imported_names_sound swab_has_orders [gauze; tape_unnamed] (start quiet shelf)
           "Gauze" H).
Defined.

